(** * Data cleaning agent: detection, correction, enrichment and the CLI loop

    A shallow embedding of [src/agents/detection_agent.py],
    [src/agents/correction_agent.py], [src/agents/enrichment_agent.py] and
    the loop of [src/cli.py], followed by the properties of the
    specification that can be stated over it.

    Conventions of the embedding:
    - text is a [string] of ASCII characters; the character classes of
      Python ([str.isspace], [\d], [\w], cased letters) are the ASCII ones.
      Python's own classes and case mappings are those of Unicode: a
      character with a code above 127 is outside the embedding, and a
      property that rests on the case rules is stated for ASCII text;
    - a table cell is a [value]: the missing value [NaN], a [bool], an [int],
      a finite [float] (carried as the rational it denotes) or a [str];
    - a [DataFrame] is the ordered list of its column labels and the ordered
      list of its rows; a row is its index label and a finite map from
      column label to cell;
    - what the program takes from libraries that are not pure string or list
      code (the textual form of a float, the similarity scorer of rapidfuzz,
      the CSV readers) is the interface [External];
    - an exception that leaves an agent is the result [None] of the agent;
      the agents raise on some tables without rows, see [Detection.raises],
      [Correction.raises] and [Cli.issues_accessor_raises]. *)

From Stdlib Require Import QArith ZArith Ascii String List Bool Lia Lqa.
From Stdlib Require Import DecimalString.
From stdpp Require Import gmap strings list fin_maps.

Open Scope string_scope.
Open Scope list_scope.

(** ** Python's string methods *)

Module Py.

Definition code (c : ascii) : nat := nat_of_ascii c.

Definition between (lo hi : nat) (c : ascii) : bool :=
  (lo <=? code c)%nat && (code c <=? hi)%nat.

(** [str.isspace] on ASCII: TAB, LF, VT, FF, CR, FS, GS, RS, US, space. *)
Definition isspace (c : ascii) : bool :=
  between 9 13 c || between 28 32 c.

(** [\d]. *)
Definition isdigit (c : ascii) : bool := between 48 57 c.

Definition isupper (c : ascii) : bool := between 65 90 c.
Definition islower (c : ascii) : bool := between 97 122 c.

(** [\w]: letters, digits and the underscore. *)
Definition isword (c : ascii) : bool :=
  isupper c || islower c || isdigit c || (code c =? 95)%nat.

Definition upper_char (c : ascii) : ascii :=
  if islower c then ascii_of_nat (code c - 32) else c.

Definition lower_char (c : ascii) : ascii :=
  if isupper c then ascii_of_nat (code c + 32) else c.

(** [s.lower()] *)
Fixpoint lower (s : string) : string :=
  match s with
  | EmptyString => EmptyString
  | String c s' => String (lower_char c) (lower s')
  end.

(** [s.title()]: a cased character that follows a cased character is
    lowered, any other cased character is raised. *)
Fixpoint title_from (previous_is_cased : bool) (s : string) : string :=
  match s with
  | EmptyString => EmptyString
  | String c s' =>
      if islower c || isupper c then
        String (if previous_is_cased then lower_char c else upper_char c)
               (title_from true s')
      else String c (title_from false s')
  end.

Definition title (s : string) : string := title_from false s.

Fixpoint lstrip (s : string) : string :=
  match s with
  | EmptyString => EmptyString
  | String c s' => if isspace c then lstrip s' else s
  end.

Fixpoint rstrip (s : string) : string :=
  match s with
  | EmptyString => EmptyString
  | String c s' =>
      match rstrip s' with
      | EmptyString => if isspace c then EmptyString else String c EmptyString
      | r => String c r
      end
  end.

(** [s.strip()] *)
Definition strip (s : string) : string := rstrip (lstrip s).

(** [re.sub(r'[^\d]', '', s)] *)
Fixpoint only_digits (s : string) : string :=
  match s with
  | EmptyString => EmptyString
  | String c s' => if isdigit c then String c (only_digits s') else only_digits s'
  end.

Fixpoint replicate_char (n : nat) (c : ascii) : string :=
  match n with
  | O => EmptyString
  | S n' => String c (replicate_char n' c)
  end.

(** [s.rjust(width, fillchar)], what [Series.str.pad] does by default
    ([side='left']). *)
Definition rjust (width : nat) (fillchar : ascii) (s : string) : string :=
  replicate_char (width - String.length s) fillchar +:+ s.

Fixpoint drop (n : nat) (s : string) : string :=
  match n, s with
  | O, _ => s
  | S _, EmptyString => EmptyString
  | S n', String _ s' => drop n' s'
  end.

Fixpoint take (n : nat) (s : string) : string :=
  match n, s with
  | O, _ => EmptyString
  | S _, EmptyString => EmptyString
  | S n', String c s' => String c (take n' s')
  end.

(** [s[-a:]] for [a > 0]. *)
Definition last_chars (a : nat) (s : string) : string :=
  drop (String.length s - a) s.

(** [s[-a:-b]] for [a >= b > 0]. *)
Definition slice_from_end (a b : nat) (s : string) : string :=
  take ((String.length s - b) - (String.length s - a))
       (drop (String.length s - a) s).

(** [sep.join(parts)] *)
Fixpoint join (sep : string) (parts : list string) : string :=
  match parts with
  | [] => EmptyString
  | [p] => p
  | p :: ps => p +:+ sep +:+ join sep ps
  end.

(** Line boundaries of [str.splitlines]: LF, VT, FF, CR, FS, GS, RS. *)
Definition islinebreak (c : ascii) : bool :=
  between 10 13 c || between 28 30 c.

(** [s.splitlines()]; [cur] is the line being read.  CR LF is one
    boundary, and a final boundary opens no empty last line. *)
Fixpoint splitlines_from (cur : string) (after_cr : bool) (s : string) : list string :=
  match s with
  | EmptyString => match cur with EmptyString => [] | _ => [cur] end
  | String c s' =>
      if islinebreak c then
        if after_cr && (code c =? 10)%nat then splitlines_from EmptyString false s'
        else cur :: splitlines_from EmptyString (code c =? 13)%nat s'
      else splitlines_from (cur +:+ String c EmptyString) false s'
  end.

Definition splitlines (s : string) : list string :=
  splitlines_from EmptyString false s.

(** Every character of the text is in the class. *)
Fixpoint all_chars (p : ascii -> bool) (s : string) : bool :=
  match s with
  | EmptyString => true
  | String c s' => p c && all_chars p s'
  end.

(** [str(n)] for an [int]. *)
Definition str_int (z : Z) : string := NilZero.string_of_int (Z.to_int z).

(** [x in xs] for strings. *)
Definition mem (x : string) (xs : list string) : bool :=
  existsb (String.eqb x) xs.

End Py.

(** ** Regular expressions

    The fragment the program's patterns are written in: literal characters,
    a character class under a bounded or unbounded repetition, sequencing,
    and [$].  [matches] is [re.match]: anchored at the start, backtracking
    over the length of each repetition. *)

Module Re.

Inductive regex : Type :=
| Chr (c : ascii)
| Class (p : ascii -> bool) (lo : nat) (hi : option nat)
| Seq (r1 r2 : regex)
| Eos.

(** [[p]{lo,hi}] followed by the continuation [k]. *)
Fixpoint repeat_class (p : ascii -> bool) (lo : nat) (hi : option nat)
         (s : string) (k : string -> bool) : bool :=
  (match lo with O => k s | S _ => false end)
  || match s with
     | EmptyString => false
     | String c s' =>
         match hi with
         | Some O => false
         | _ => p c && repeat_class p (Nat.pred lo) (option_map Nat.pred hi) s' k
         end
     end.

(** [$] without [re.MULTILINE]: the end of the text, or just before a
    line feed that ends it. *)
Definition at_end (s : string) : bool :=
  match s with
  | EmptyString => true
  | String c EmptyString => (Py.code c =? 10)%nat
  | _ => false
  end.

Fixpoint run (r : regex) (s : string) (k : string -> bool) : bool :=
  match r with
  | Chr c =>
      match s with
      | String c' s' => Ascii.eqb c c' && k s'
      | EmptyString => false
      end
  | Class p lo hi => repeat_class p lo hi s k
  | Seq r1 r2 => run r1 s (fun rest => run r2 rest k)
  | Eos => at_end s && k s
  end.

Definition matches (r : regex) (s : string) : bool := run r s (fun _ => true).

Definition plus (p : ascii -> bool) : regex := Class p 1 None.

(** [re.sub(r'^```csv\s*|```$', '', s, flags=re.MULTILINE)], read from
    left to right.  [skip] counts the characters of the current match still
    to be dropped, [eat] says that the match goes on through white space,
    [bol] that the position follows a line feed or starts the text. *)
Definition is_lf (c : ascii) : bool := (Py.code c =? 10)%nat.

Definition before_eol (s : string) : bool :=
  match s with
  | EmptyString => true
  | String c _ => is_lf c
  end.

Fixpoint sub_fence (skip : nat) (eat bol : bool) (s : string) : string :=
  match s with
  | EmptyString => EmptyString
  | String c s' =>
      match skip with
      | S n => sub_fence n eat false s'
      | O =>
          if eat && Py.isspace c then sub_fence 0 true (is_lf c) s'
          else if bol && String.prefix "```csv" s then sub_fence 5 true false s'
          else if String.prefix "```" s && before_eol (Py.drop 3 s)
               then sub_fence 2 false false s'
          else String c (sub_fence 0 false (is_lf c) s')
      end
  end.

Definition remove_code_fence (s : string) : string := sub_fence 0 false true s.

End Re.

(** ** Cells, rows and tables *)

Inductive value : Type :=
| VNaN
| VBool (b : bool)
| VInt (n : Z)
| VFloat (x : Q)
| VStr (s : string).

Record row : Type := Row { label : nat; cells : gmap string value }.

Record DataFrame : Type := Frame { columns : list string; rows : list row }.

(** What the program takes from its libraries. *)
Class External : Type := {
  (** [str(x)] for a finite float [x] *)
  float_str : Q -> string;
  (** [rapidfuzz.fuzz.token_sort_ratio] *)
  token_sort_ratio : string -> string -> Q;
  (** [len(list(csv.reader([line]))[0])]; [None] when it raises *)
  csv_field_count : string -> option nat;
  (** [pd.read_csv(StringIO(text), ...)] with the quote and escape
      characters the program passes; [None] when it raises *)
  read_csv : string -> option DataFrame
}.

(** [pd.isnull(x)] *)
Definition isnull (x : value) : bool :=
  match x with VNaN => true | _ => false end.

(** [isinstance(x, (int, float))]: [bool] is a subclass of [int], and the
    missing value is the float NaN. *)
Definition is_int_or_float (x : value) : bool :=
  match x with VStr _ => false | _ => true end.

(** The number a cell compares as; NaN has none, every comparison with it
    is false. *)
Definition py_num (x : value) : option Q :=
  match x with
  | VBool b => Some (if b then 1 else 0)%Q
  | VInt n => Some (inject_Z n)
  | VFloat q => Some q
  | VNaN | VStr _ => None
  end.

Definition Qltb (a b : Q) : bool := negb (Qle_bool b a).

Definition num_lt (x : value) (k : Q) : bool :=
  match py_num x with Some q => Qltb q k | None => false end.
Definition num_le (x : value) (k : Q) : bool :=
  match py_num x with Some q => Qle_bool q k | None => false end.
Definition num_gt (x : value) (k : Q) : bool :=
  match py_num x with Some q => Qltb k q | None => false end.

(** Python's [==] on cells. *)
Definition py_eq (a b : value) : bool :=
  match a, b with
  | VStr s, VStr t => String.eqb s t
  | _, _ =>
      match py_num a, py_num b with
      | Some p, Some q => Qeq_bool p q
      | _, _ => false
      end
  end.

(** Equality of cells for [duplicated] and [drop_duplicates]: as [==], and
    two missing values are the same. *)
Definition same_cell (a b : value) : bool :=
  match a, b with
  | VNaN, VNaN => true
  | _, _ => py_eq a b
  end.

(** [str(x)], which [Series.astype(str)] applies to each cell. *)
Definition str `{External} (x : value) : string :=
  match x with
  | VNaN => "nan"
  | VBool true => "True"
  | VBool false => "False"
  | VInt n => Py.str_int n
  | VFloat q => float_str q
  | VStr s => s
  end.

(** [row[col]]; a missing cell reads as NaN. *)
Definition cell (col : string) (r : row) : value :=
  default VNaN (cells r !! col).

(** [col in df.columns] *)
Definition has_column (col : string) (df : DataFrame) : bool :=
  Py.mem col (columns df).

(** [df[col] = series], the series given by its value at each row: an
    existing column is overwritten in place, a new one is appended. *)
Definition assign (col : string) (series : row -> value) (df : DataFrame) : DataFrame :=
  Frame (if has_column col df then columns df else columns df ++ [col])
        (map (fun r => Row (label r) (<[col := series r]> (cells r))) (rows df)).

(** [df[col] = df[col].apply(f)] *)
Definition apply_column (col : string) (f : value -> value) (df : DataFrame) : DataFrame :=
  assign col (fun r => f (cell col r)) df.

(** [df.drop(columns=[col])] *)
Definition drop_column (col : string) (df : DataFrame) : DataFrame :=
  Frame (List.filter (fun c => negb (String.eqb c col)) (columns df))
        (map (fun r => Row (label r) (delete col (cells r))) (rows df)).

(** Two rows agree on every column of the table. *)
Definition same_row (cols : list string) (r1 r2 : row) : bool :=
  forallb (fun c => same_cell (cell c r1) (cell c r2)) cols.

(** [df.duplicated(keep=False)] at a row: some other row of the table agrees
    with it, that is, at least two rows of the table agree with it. *)
Definition duplicated (df : DataFrame) (r : row) : bool :=
  (2 <=? length (List.filter (same_row (columns df) r) (rows df)))%nat.

(** [df.drop_duplicates(keep='first')]: [seen] are the rows kept so far. *)
Fixpoint keep_first (cols : list string) (seen : list row) (rs : list row) : list row :=
  match rs with
  | [] => []
  | r :: rs' =>
      if existsb (same_row cols r) seen then keep_first cols seen rs'
      else r :: keep_first cols (r :: seen) rs'
  end.

Definition drop_duplicates (df : DataFrame) : DataFrame :=
  Frame (columns df) (keep_first (columns df) [] (rows df)).

(** The column as a list, in row order. *)
Definition column (col : string) (df : DataFrame) : list value :=
  map (cell col) (rows df).

(** [Series.median()]: missing for an empty series, the middle value of the
    sorted values, or the mean of the two middle values. *)
Fixpoint insert_sorted (x : Q) (xs : list Q) : list Q :=
  match xs with
  | [] => [x]
  | y :: ys => if Qle_bool x y then x :: xs else y :: insert_sorted x ys
  end.

Definition sort (xs : list Q) : list Q := fold_right insert_sorted [] xs.

Definition median (xs : list Q) : option Q :=
  let sorted := sort xs in
  let n := length sorted in
  match n with
  | O => None
  | _ =>
      if Nat.even n
      then Some (Qred ((nth (n / 2 - 1) sorted 0%Q + nth (n / 2) sorted 0%Q) / 2)%Q)
      else Some (nth (n / 2) sorted 0%Q)
  end.

Definition float_or_nan (m : option Q) : value :=
  match m with Some q => VFloat q | None => VNaN end.

(** ** Audit log entries

    The agents return their log as a list of text lines; an entry here
    carries what the line is formatted from. *)

Inductive log_entry : Type :=
(** detection: the number of flagged rows and their (index label, value) *)
| Flagged (what : string) (count : nat) (found : list (nat * value))
(** detection: the number of duplicate rows and their index labels *)
| DuplicatesFound (count : nat) (found : list nat)
(** correction: the (position, old, new) of each changed cell *)
| Standardized (what : string) (changed : list (nat * value * value))
| RemovedDuplicates (removed : nat)
(** enrichment: the cells of a column filled in, the cells of a new column *)
| FilledColumn (col : string) (changed : list (nat * value * value))
| NewColumn (col : string) (vals : list (nat * value))
| EnrichedAll
| ParseError.

(** [[(idx, old, new) for idx, (old, new) in enumerate(zip(before, after))
     if old != new]] *)
Definition changes (before after : list value) : list (nat * value * value) :=
  List.filter (fun e => negb (py_eq (snd (fst e)) (snd e)))
         (combine (combine (seq 0 (length before)) before) after).

Definition nonempty {A : Type} (l : list A) : bool :=
  match l with [] => false | _ => true end.

(** ** The detection agent ([src/agents/detection_agent.py]) *)

Module Detection.

Definition word_dot_dash (c : ascii) : bool :=
  Py.isword c || Ascii.eqb c "." || Ascii.eqb c "-".

(** [^[\w\.-]+@[\w\.-]+\.\w+$] *)
Definition EMAIL_REGEX : Re.regex :=
  Re.Seq (Re.plus word_dot_dash)
    (Re.Seq (Re.Chr "@")
      (Re.Seq (Re.plus word_dot_dash)
        (Re.Seq (Re.Chr ".") (Re.Seq (Re.plus Py.isword) Re.Eos)))).

(** [^\d{3,4}-\d{4}$] *)
Definition PHONE_REGEX : Re.regex :=
  Re.Seq (Re.Class Py.isdigit 3 (Some 4))
    (Re.Seq (Re.Chr "-") (Re.Seq (Re.Class Py.isdigit 4 (Some 4)) Re.Eos)).

Definition GENDERS : list string := ["Male"; "Female"; "Other"].
Definition MARITAL_STATUSES : list string :=
  ["Single"; "Married"; "Divorced"; "Widowed"].

Definition CANONICAL_COUNTRIES : list string :=
[
  "United States"; "India"; "Canada"; "United Kingdom"; "Australia";
  "Germany"; "France"; "Japan"; "China"; "Brazil"; "South Korea"; "Italy";
  "Spain"; "Mexico"; "Russia"; "Netherlands"; "Sweden"; "Norway";
  "Denmark"; "Finland"; "Switzerland"; "Austria"; "Belgium"; "Ireland";
  "New Zealand"; "Singapore"; "Malaysia"; "Thailand"; "Indonesia";
  "Turkey"; "Saudi Arabia"; "UAE"; "South Africa"; "Egypt"; "Argentina";
  "Chile"; "Colombia"; "Peru"; "Poland"; "Portugal"; "Greece";
  "Czech Republic"; "Hungary"; "Romania"; "Slovakia"; "Slovenia";
  "Croatia"; "Estonia"; "Latvia"; "Lithuania"; "Philippines"; "Vietnam";
  "Pakistan"; "Bangladesh"; "Sri Lanka"; "Nepal"; "Israel"; "Qatar";
  "Kuwait"; "Oman"; "Morocco"; "Kenya"; "Nigeria"; "Ghana"; "Venezuela";
  "Ecuador"; "Uruguay"; "Paraguay"; "Bolivia"; "Costa Rica"; "Panama";
  "Guatemala"; "Honduras"; "El Salvador"; "Dominican Republic"; "Cuba";
  "Jamaica"; "Trinidad and Tobago"; "Iceland"; "Luxembourg";
  "Liechtenstein"; "Monaco"; "Andorra"; "San Marino"; "Malta"; "Cyprus";
  "Bahrain"; "Jordan"; "Lebanon"; "Syria"; "Iraq"; "Iran"; "Afghanistan";
  "Uzbekistan"; "Kazakhstan"; "Azerbaijan"; "Georgia"; "Armenia";
  "Mongolia"; "Cambodia"; "Laos"; "Myanmar"; "Brunei"; "Timor-Leste"
].

(** [Series.isin(vocabulary)] at a cell *)
Definition isin (vocabulary : list string) (x : value) : bool :=
  match x with
  | VStr s => Py.mem s vocabulary
  | _ => false
  end.

Section Rules.
Context `{External}.

Definition invalid_email_mask (r : row) : bool :=
  negb (Re.matches EMAIL_REGEX (str (cell "email" r))).

Definition missing_email_mask (r : row) : bool :=
  isnull (cell "email" r) || String.eqb (Py.strip (str (cell "email" r))) "".

Definition email_issues_mask (r : row) : bool :=
  invalid_email_mask r || missing_email_mask r.

Definition invalid_phone_mask (r : row) : bool :=
  negb (Re.matches PHONE_REGEX (str (cell "phone" r))).

Definition invalid_gender_mask (r : row) : bool :=
  negb (isin GENDERS (cell "gender" r)).

Definition invalid_marital_mask (r : row) : bool :=
  negb (isin MARITAL_STATUSES (cell "marital_status" r)).

Definition invalid_age_mask (r : row) : bool :=
  let x := cell "age" r in
  isnull x || (is_int_or_float x && (num_le x 0 || num_gt x 120)).

Definition invalid_loyalty_mask (r : row) : bool :=
  let x := cell "loyalty_points" r in
  isnull x || (is_int_or_float x && num_lt x 0).

Definition non_canonical_mask (r : row) : bool :=
  negb (isin CANONICAL_COUNTRIES (cell "country" r)).

Definition empty_name_mask (col : string) (r : row) : bool :=
  isnull (cell col r)
  || String.eqb (Py.strip (str (cell col r))) ""
  || String.eqb (Py.lower (str (cell col r))) "nan".

(** [mask.map(lambda x: tag if x else '')] *)
Definition tag_series (mask : row -> bool) (tag : string) : row -> string :=
  fun r => if mask r then tag else "".

(** [[(idx, val) for idx, val in df[mask][col].items()]] *)
Definition flagged (col : string) (mask : row -> bool) (df : DataFrame)
  : list (nat * value) :=
  map (fun r => (label r, cell col r)) (List.filter mask (rows df)).

(** The state a rule extends: the list [issues] and the list [logs]. *)
Definition findings : Type := list (row -> string) * list log_entry.

(** [df[mask].col], the selection a rule logs, for a mask made by
    [Series.apply].  On a table without rows [apply] returns an empty
    Series of dtype object, which is no boolean mask: the selection is then
    by column label, gives a table without columns, and the attribute
    lookup raises AttributeError.  The other masks are boolean whatever the
    number of rows. *)
Definition selection_raises (col : string) (df : DataFrame) : bool :=
  has_column col df && negb (nonempty (rows df)).

(** The two rules whose mask is made by [Series.apply]: age and loyalty
    points. *)
Definition raises (df : DataFrame) : bool :=
  selection_raises "age" df || selection_raises "loyalty_points" df.

(** One column rule, run when the column is present: what it appends to
    [issues] and to [logs] when its selection does not raise. *)
Definition check (df : DataFrame) (col : string) (mask : row -> bool)
           (tag what : string) (acc : findings) : findings :=
  if has_column col df then
    let found := flagged col mask df in
    (fst acc ++ [tag_series mask tag],
     snd acc ++ [Flagged what (length found) found])
  else acc.

(** The duplicate rule, run on every table. *)
Definition check_duplicates (df : DataFrame) (acc : findings) : findings :=
  let found := map label (List.filter (duplicated df) (rows df)) in
  (fst acc ++ [tag_series (duplicated df) "Duplicate"],
   snd acc ++ [DuplicatesFound (length found) found]).

Definition check_name (df : DataFrame) (acc : findings) (col : string) : findings :=
  check df col (empty_name_mask col) ("Empty " +:+ col) ("empty " +:+ col) acc.

(** The list [issues] and the list [logs] before the issues are combined,
    when no rule raises. *)
Definition run_rules (df : DataFrame) : findings :=
  let acc : findings := ([], []) in
  let acc := check df "email" email_issues_mask
               "Invalid Email" "missing or malformed emails" acc in
  let acc := check df "phone" invalid_phone_mask
               "Invalid Phone" "invalid phone numbers" acc in
  let acc := check df "gender" invalid_gender_mask
               "Invalid Gender" "invalid gender" acc in
  let acc := check df "marital_status" invalid_marital_mask
               "Invalid Marital Status" "invalid marital status" acc in
  let acc := check df "age" invalid_age_mask
               "Invalid Age" "missing, negative, or implausible ages" acc in
  let acc := check df "loyalty_points" invalid_loyalty_mask
               "Invalid Loyalty Points" "invalid loyalty points" acc in
  let acc := check df "country" non_canonical_mask
               "Non-canonical Country" "non-canonical or misspelled countries" acc in
  let acc := check_duplicates df acc in
  fold_left (check_name df) ["first_name"; "last_name"; "full_name"] acc.

(** The tags of a row: [[str(issue) for issue in row if issue]] *)
Definition row_tags (issues : list (row -> string)) (r : row) : list string :=
  List.filter (fun t => negb (String.eqb t "")) (map (fun series => series r) issues).

Definition combine_issues (issues : list (row -> string)) (r : row) : value :=
  VStr (Py.join ", " (row_tags issues r)).

(** [detect_issues]: [None] when a rule raises. *)
Definition detect_issues (df : DataFrame) : option (DataFrame * list log_entry) :=
  if raises df then None
  else
    let '(issues, logs) := run_rules df in
    if nonempty issues then Some (assign "issues" (combine_issues issues) df, logs)
    else if has_column "issues" df then Some (drop_column "issues" df, logs)
    else Some (df, logs).

End Rules.

End Detection.

(** ** The correction agent ([src/agents/correction_agent.py]) *)

Module Correction.

Definition CANONICAL_COUNTRIES : list string :=
[
  "United States"; "India"; "Canada"; "United Kingdom"; "Australia";
  "Germany"; "France"; "Japan"; "China"; "Brazil"; "South Korea"; "Italy";
  "Spain"; "Mexico"; "Russia"; "Netherlands"; "Sweden"; "Norway";
  "Denmark"; "Finland"; "Switzerland"; "Austria"; "Belgium"; "Ireland";
  "New Zealand"; "Singapore"; "Malaysia"; "Thailand"; "Indonesia";
  "Turkey"; "Saudi Arabia"; "UAE"; "South Africa"; "Egypt"; "Argentina";
  "Chile"; "Colombia"; "Peru"; "Poland"; "Portugal"; "Greece";
  "Czech Republic"; "Hungary"; "Romania"; "Slovakia"; "Slovenia";
  "Croatia"; "Estonia"; "Latvia"; "Lithuania"; "Philippines"; "Vietnam";
  "Pakistan"; "Bangladesh"; "Sri Lanka"; "Nepal"; "Israel"; "Qatar";
  "Kuwait"; "Oman"; "Morocco"; "Kenya"; "Nigeria"; "Ghana"; "Venezuela";
  "Ecuador"; "Uruguay"; "Paraguay"; "Bolivia"; "Costa Rica"; "Panama";
  "Guatemala"; "Honduras"; "El Salvador"; "Dominican Republic"; "Cuba";
  "Jamaica"; "Trinidad and Tobago"; "Iceland"; "Luxembourg";
  "Liechtenstein"; "Monaco"; "Andorra"; "San Marino"; "Malta"; "Cyprus";
  "Bahrain"; "Jordan"; "Lebanon"; "Syria"; "Iraq"; "Iran"; "Afghanistan";
  "Uzbekistan"; "Kazakhstan"; "Azerbaijan"; "Georgia"; "Armenia";
  "Mongolia"; "Cambodia"; "Laos"; "Myanmar"; "Brunei"; "Timor-Leste"
].

Definition CANONICAL_CITIES : list string :=
[
  "Springfield"; "Seattle"; "Miami Beach"; "San Francisco"; "Bludhaven";
  "Hub City"; "Metropolis"; "Opal City"; "Gateway City"; "Houston";
  "Central City"; "Bellevue"; "Riverside"; "New York"; "Gotham";
  "Coast City"; "Los Angeles"; "Star City"; "Miami"; "National City";
  "Mumbai"; "Newark"; "Dallas"; "Unknown"
].

Definition GENDERS : list string := ["Male"; "Female"; "Other"].
Definition MARITAL_STATUSES : list string :=
  ["Single"; "Married"; "Divorced"; "Widowed"].

Section Rules.
Context `{External}.

(** [process.extractOne(query, choices, scorer=fuzz.token_sort_ratio)]:
    the choice with the highest score, the first of them on a tie;
    [None] for an empty list of choices. *)
Definition better (query : string) (best : string * Q) (choice : string)
  : string * Q :=
  let score := token_sort_ratio query choice in
  if Qltb (snd best) score then (choice, score) else best.

Definition extractOne (query : string) (choices : list string)
  : option (string * Q) :=
  match choices with
  | [] => None
  | c :: cs => Some (fold_left (better query) cs (c, token_sort_ratio query c))
  end.

(** The body shared by [match_country] and [match_city]. *)
Definition fuzzy_match (vocabulary : list string) (threshold : Q) (val : value)
  : value :=
  let val_clean := Py.title (Py.strip (str val)) in
  if isnull val || String.eqb val_clean "" || String.eqb val_clean "Unknown"
  then VStr "Unknown"
  else if Py.mem val_clean vocabulary then VStr val_clean
  else match extractOne val_clean vocabulary with
       | Some (found, score) =>
           if Qltb threshold score then VStr found else VStr "Unknown"
       | None => VStr "Unknown"
       end.

Definition match_country : value -> value := fuzzy_match CANONICAL_COUNTRIES 70.
Definition match_city : value -> value := fuzzy_match CANONICAL_CITIES 40.

(** [astype(str).str.title().str.strip()], then
    [replace(['Nan', 'nan', '', None], 'Unknown')] *)
Definition standard_name (x : value) : value :=
  let s := Py.strip (Py.title (str x)) in
  if Py.mem s ["Nan"; "nan"; ""] then VStr "Unknown" else VStr s.

(** [lambda x: isinstance(x, (int, float)) and 0 < x < 120] *)
Definition counts_for_median (x : value) : bool :=
  is_int_or_float x && (num_gt x 0 && num_lt x 120).

(** [df[df['age'].apply(...)]['age'].median()] *)
Definition median_age (df : DataFrame) : value :=
  float_or_nan
    (median (omap py_num (List.filter counts_for_median (column "age" df)))).

Definition standard_age (median_age : value) (x : value) : value :=
  if isnull x || negb (is_int_or_float x) || num_le x 0 || num_gt x 120
  then median_age else x.

Definition standard_loyalty (x : value) : value :=
  if isnull x || negb (is_int_or_float x) || num_lt x 0 then VInt 0 else x.

Definition standard_gender (x : value) : value :=
  if Detection.isin GENDERS x then x else VStr "Other".

Definition standard_marital (x : value) : value :=
  if Detection.isin MARITAL_STATUSES x then x else VStr "Single".

(** [astype(str).str.replace(r'[^\d]', '', regex=True).str.pad(8, fillchar='0')] *)
Definition phone_digits (x : value) : string :=
  Py.rjust 8 "0" (Py.only_digits (str x)).

(** [lambda x: f'{x[-8:-4]}-{x[-4:]}' if len(x) >= 8 else '0000-0000'] *)
Definition phone_format (x : string) : string :=
  if (8 <=? String.length x)%nat
  then Py.slice_from_end 8 4 x +:+ "-" +:+ Py.last_chars 4 x
  else "0000-0000".

Definition standard_phone (x : value) : value :=
  VStr (phone_format (phone_digits x)).

(** One column step: rewrite the column when it is present and log the
    cells that changed, if any. *)
Definition standardize (col what : string) (f : DataFrame -> value -> value)
           (st : DataFrame * list log_entry) : DataFrame * list log_entry :=
  let '(df, logs) := st in
  if has_column col df then
    let df' := apply_column col (f df) df in
    let changed := changes (column col df) (column col df') in
    (df', if nonempty changed then logs ++ [Standardized what changed] else logs)
  else st.

Definition standardize_name (st : DataFrame * list log_entry) (col : string) :=
  standardize col col (fun _ => standard_name) st.

Definition remove_duplicates (st : DataFrame * list log_entry)
  : DataFrame * list log_entry :=
  let '(df, logs) := st in
  let before := length (rows df) in
  let df := drop_duplicates df in
  let after := length (rows df) in
  (df, if negb (before =? after)%nat
       then logs ++ [RemovedDuplicates (before - after)] else logs).

Definition drop_issues (st : DataFrame * list log_entry)
  : DataFrame * list log_entry :=
  let '(df, logs) := st in
  if has_column "issues" df then (drop_column "issues" df, logs) else st.

(** The median line, [df[df['age'].apply(...)]['age']], on a table without
    rows: [apply] returns an empty Series of dtype object, the selection is
    by column label and has no column, and [['age']] raises KeyError. *)
Definition raises (df : DataFrame) : bool :=
  has_column "age" df && negb (nonempty (rows df)).

(** [correct_issues] on the tables on which it does not raise; the loop of
    [main] only calls it on a table that has a record with an issue. *)
Definition correct_issues (df : DataFrame) : DataFrame * list log_entry :=
  let st := (df, []) in
  let st := fold_left standardize_name ["first_name"; "last_name"; "full_name"] st in
  let st := remove_duplicates st in
  let st := standardize "country" "country using fuzzy matching"
              (fun _ => match_country) st in
  let st := standardize "age" "age" (fun df => standard_age (median_age df)) st in
  let st := standardize "loyalty_points" "loyalty_points"
              (fun _ => standard_loyalty) st in
  let st := standardize "gender" "gender" (fun _ => standard_gender) st in
  let st := standardize "marital_status" "marital_status"
              (fun _ => standard_marital) st in
  let st := standardize "phone" "phone" (fun _ => standard_phone) st in
  let st := standardize "city" "city using fuzzy matching"
              (fun _ => match_city) st in
  drop_issues st.

End Rules.

End Correction.

(** ** The enrichment agent ([src/agents/enrichment_agent.py])

    The text service is outside the program: [reply] is what
    [model.generate_content(prompt).text] returned, or [None] when the call
    raised.  The prompt, built from a copy of the table, reaches only the
    service, so it is not part of the model. *)

Module Enrichment.

Definition LF : string := String (ascii_of_nat 10) EmptyString.

Section Rules.
Context `{External}.

Definition gemini_generate (reply : option string) : string :=
  match reply with
  | Some text => Py.strip text
  | None => "Unknown"
  end.

(** [[line for line in lines if len(list(csv.reader([line]))[0]) == num_fields]];
    [None] when reading a line raises. *)
Fixpoint filter_lines (num_fields : nat) (lines : list string)
  : option (list string) :=
  match lines with
  | [] => Some []
  | line :: rest =>
      match csv_field_count line with
      | Some n =>
          match filter_lines num_fields rest with
          | Some kept => Some (if (n =? num_fields)%nat then line :: kept else kept)
          | None => None
          end
      | None => None
      end
  end.

(** The [try] block up to [pd.read_csv]: the parsed table, or [None]
    when a step raises ([splitlines()[0]] on a text with no line, the
    CSV readers). *)
Definition parse_response (response : string) : option DataFrame :=
  match Py.splitlines response with
  | [] => None
  | header :: _ =>
      match csv_field_count header with
      | Some num_fields =>
          match filter_lines num_fields (Py.splitlines response) with
          | Some filtered_lines => read_csv (Py.join LF filtered_lines)
          | None => None
          end
      | None => None
      end
  end.

(** [str(x).strip().lower() in ['', 'missing', 'unknown', 'nan']] *)
Definition missing_like (x : value) : bool :=
  Py.mem (Py.lower (Py.strip (str x))) [""; "missing"; "unknown"; "nan"].

Definition filled (old_new : nat * value * value) : bool :=
  missing_like (snd (fst old_new)) && negb (missing_like (snd old_new)).

(** The entries of the first loop, over the columns of [df] that the
    parsed table has too. *)
Definition filled_logs (df enriched_df : DataFrame) : list log_entry :=
  flat_map
    (fun col =>
       if has_column col enriched_df then
         let before := column col df in
         let column_changes :=
           List.filter filled
             (combine (combine (seq 0 (length before)) before)
                      (column col enriched_df)) in
         if nonempty column_changes then [FilledColumn col column_changes] else []
       else [])
    (columns df).

(** The entries of the second loop, over the columns that are new. *)
Definition new_column_logs (df enriched_df : DataFrame) : list log_entry :=
  flat_map
    (fun col =>
       if has_column col df then []
       else
         let vals := column col enriched_df in
         [NewColumn col (combine (seq 0 (length vals)) vals)])
    (columns enriched_df).

(** [if 'issues' in df.columns: df['issues'] = ''] *)
Definition clear_issues (df : DataFrame) : DataFrame :=
  if has_column "issues" df then assign "issues" (fun _ => VStr "") df else df.

Definition enrich_data (reply : option string) (df : DataFrame)
  : DataFrame * list log_entry :=
  let response := gemini_generate reply in
  let response := Py.strip (Re.remove_code_fence response) in
  match parse_response response with
  | Some enriched_df =>
      (clear_issues enriched_df,
       filled_logs df enriched_df ++ new_column_logs df enriched_df ++ [EnrichedAll])
  | None => (clear_issues df, [ParseError])
  end.

End Rules.

End Enrichment.

(** ** The orchestrator ([main] of [src/cli.py])

    The model starts from the table read from the input file and ends with
    the table written to the output file.  [service n] is the reply of the
    text service to the request of iteration [n]. *)

Module Cli.

Inductive agent : Type := DetectionAgent | CorrectionAgent | EnrichmentAgent.

(** The lines of the run's log. *)
Inductive message : Type :=
| PipelineIteration (iteration : nat)
| FromAgent (a : agent) (entry : log_entry)
| CorrectionNeeded
| NoCorrectionNeeded
| EnrichmentNeeded
| NoEnrichmentNeeded
| ForwardingForRecheck
| AllIssuesResolved (iteration : nat)
| MaximumIterationsReached (max_iterations : nat)
| UnresolvedHeader
| UnresolvedRow (idx : nat) (issues : value)
| PipelineFailed.

(** How the loop was left. *)
Inductive exit : Type :=
| NoIssuesLeft          (** [break] after "No correction needed" *)
| CorrectionSufficed    (** [break] after "No enrichment needed" *)
| IterationsUsedUp.     (** the loop condition failed *)

(** The state of a run: the table, the log written so far, and, for the
    statements about the run, the agents called so far in order. *)
Record state : Type := State {
  df : DataFrame;
  log : list message;
  calls : list agent
}.

(** How a run ended: the loop was left and the table is written to the
    output file; or an exception reached the handler of [main], which logs
    it and exits with code 1, and no table is written. *)
Inductive outcome : Type :=
| Finished (e : exit) (st : state)
| Failed (st : state).

Definition state_of (o : outcome) : state :=
  match o with
  | Finished _ st => st
  | Failed st => st
  end.

(** A step of the run: the next state, or the state in which an exception
    is raised. *)
Inductive attempt : Type :=
| Done (st : state)
| Raised (st : state).

Definition and_then (a : attempt) (k : state -> option outcome) : option outcome :=
  match a with
  | Done st => k st
  | Raised st => Some (Failed st)
  end.

Definition say (m : message) (st : state) : state :=
  State (df st) (log st ++ [m]) (calls st).

Definition max_iterations : nat := 3.

Section Run.
Context `{External}.

Definition nonblank (x : string) : bool :=
  negb (String.eqb (Py.strip x) "").

(** [df['issues'].astype(str).str.strip().any()] when the column is there *)
Definition needs_correction (d : DataFrame) : bool :=
  if has_column "issues" d
  then existsb (fun r => nonblank (str (cell "issues" r))) (rows d)
  else false.

Definition needs_enrichment (d : DataFrame) : bool :=
  existsb
    (fun col =>
       if String.eqb col "issues" then false
       else existsb (fun r => isnull (cell col r)) (rows d)
            || existsb (fun r => Py.mem (Py.lower (Py.strip (str (cell col r))))
                                        ["missing"; "unknown"; "nan"; ""])
                       (rows d))
    (columns d).

(** The three agents as [main] calls them. *)
Definition detect_issues (d : DataFrame) : option (DataFrame * list log_entry) :=
  Detection.detect_issues d.

Definition correct_issues (d : DataFrame) : option (DataFrame * list log_entry) :=
  if Correction.raises d then None else Some (Correction.correct_issues d).

Definition enrich_data (reply : option string) (d : DataFrame)
  : option (DataFrame * list log_entry) :=
  Some (Enrichment.enrich_data reply d).

(** A call of an agent and the logging of its entries; when the agent
    raises, the handler of [main] logs the failure. *)
Definition call (a : agent) (f : DataFrame -> option (DataFrame * list log_entry))
           (st : state) : attempt :=
  match f (df st) with
  | Some (d, entries) =>
      Done (State d (log st ++ map (FromAgent a) entries) (calls st ++ [a]))
  | None => Raised (State (df st) (log st ++ [PipelineFailed]) (calls st ++ [a]))
  end.

(** [df['issues'].str] of the re-check, taken without [astype(str)]: the
    accessor raises AttributeError on a column that holds no text.  The
    Issues Column that detection writes holds the joined tags when the
    table has a row; when it has none, it is an empty column of dtype
    float64. *)
Definition issues_accessor_raises (d : DataFrame) : bool :=
  negb (nonempty (rows d)).

(** The re-check of the last iteration. *)
Definition final_check (iteration : nat) (st : state) : attempt :=
  match call DetectionAgent detect_issues st with
  | Raised st => Raised st
  | Done st =>
      if issues_accessor_raises (df st) then Raised (say PipelineFailed st)
      else
        let unresolved :=
          List.filter (fun r => nonblank (str (cell "issues" r))) (rows (df st)) in
        if negb (nonempty unresolved) then Done (say (AllIssuesResolved iteration) st)
        else
          let st := say (MaximumIterationsReached max_iterations) st in
          let st := say UnresolvedHeader st in
          Done (fold_left (fun st r => say (UnresolvedRow (label r) (cell "issues" r)) st)
                          unresolved st)
  end.

(** The [while] loop; [fuel] bounds the number of times its condition
    is evaluated. *)
Fixpoint loop (fuel : nat) (service : nat -> option string)
         (iteration : nat) (st : state) : option outcome :=
  match fuel with
  | O => None
  | S fuel' =>
      if (iteration <? max_iterations)%nat then
        let iteration := (iteration + 1)%nat in
        let st := say (PipelineIteration iteration) st in
        and_then (call DetectionAgent detect_issues st) (fun st =>
        if needs_correction (df st) then
          let st := say CorrectionNeeded st in
          and_then (call CorrectionAgent correct_issues st) (fun st =>
          if needs_enrichment (df st) then
            let st := say EnrichmentNeeded st in
            and_then (call EnrichmentAgent (enrich_data (service iteration)) st) (fun st =>
            let st := say ForwardingForRecheck st in
            and_then (if (iteration =? max_iterations)%nat
                      then final_check iteration st else Done st) (fun st =>
            loop fuel' service iteration st))
          else Some (Finished CorrectionSufficed (say NoEnrichmentNeeded st)))
        else Some (Finished NoIssuesLeft (say NoCorrectionNeeded st)))
      else Some (Finished IterationsUsedUp st)
  end.

(** From [pd.read_csv(input)] to [df.to_csv(output)], or to the handler. *)
Definition main (service : nat -> option string) (input : DataFrame)
  : option outcome :=
  loop (S max_iterations) service 0 (State input [] []).

(** The number of detection passes of a run, and the number of
    iterations of the loop it entered. *)
Definition detection_passes (st : state) : nat :=
  length (List.filter (fun a => match a with DetectionAgent => true | _ => false end)
                 (calls st)).

Definition iterations (st : state) : nat :=
  length (List.filter (fun m => match m with PipelineIteration _ => true | _ => false end)
                 (log st)).

End Run.

End Cli.

(** ** A reference instance of the external interface

    Small executable stand-ins for the libraries, used to run the model on
    concrete tables: floats print with their decimal expansion, the scorer
    is the case-sensitive token sort ratio (twice the length of a longest
    common subsequence of the two texts, tokens sorted, over the sum of
    their lengths, in percent), and the CSV readers split unquoted and
    double-quoted fields at commas. *)

Module Reference.

(** *** Floats *)

Fixpoint fraction_digits (fuel : nat) (num : Z) (den : Z) : string :=
  match fuel with
  | O => EmptyString
  | S fuel' =>
      if (num =? 0)%Z then EmptyString
      else Py.str_int (num * 10 / den) +:+ fraction_digits fuel' ((num * 10) mod den) den
  end.

Definition float_str (q : Q) : string :=
  let q := Qred q in
  let num := Z.abs (Qnum q) in
  let den := Zpos (Qden q) in
  let fraction := fraction_digits 17 (num mod den) den in
  (if (Qnum q <? 0)%Z then "-" else "")
  +:+ Py.str_int (num / den) +:+ "."
  +:+ (match fraction with EmptyString => "0" | _ => fraction end).

(** *** The token sort ratio *)

(** [s.split()] *)
Fixpoint split_from (cur : string) (s : string) : list string :=
  match s with
  | EmptyString => match cur with EmptyString => [] | _ => [cur] end
  | String c s' =>
      if Py.isspace c
      then match cur with
           | EmptyString => split_from EmptyString s'
           | _ => cur :: split_from EmptyString s'
           end
      else split_from (cur +:+ String c EmptyString) s'
  end.

Fixpoint insert_token (t : string) (ts : list string) : list string :=
  match ts with
  | [] => [t]
  | u :: us => if String.leb t u then t :: ts else u :: insert_token t us
  end.

Definition sorted_tokens (s : string) : string :=
  Py.join " " (fold_right insert_token [] (split_from EmptyString s)).

(** One row of the longest-common-subsequence table: [prev] is the row of
    the characters read so far, [diag] and [left] the entries above-left
    and left of the one being filled. *)
Fixpoint lcs_row (c : ascii) (t : list ascii) (prev : list nat) (diag left : nat)
  : list nat :=
  match t, prev with
  | d :: t', up :: prev' =>
      let here := if Ascii.eqb c d then S diag else Nat.max up left in
      here :: lcs_row c t' prev' up here
  | _, _ => []
  end.

Definition lcs_length (s t : string) : nat :=
  let t := list_ascii_of_string t in
  List.last (fold_left (fun prev c => lcs_row c t prev 0 0)
                       (list_ascii_of_string s) (map (fun _ => O) t)) O.

Definition indel_ratio (s t : string) : Q :=
  match (String.length s + String.length t)%nat with
  | O => 100
  | S n => Qmake (200 * Z.of_nat (lcs_length s t)) (Pos.of_succ_nat n)
  end.

Definition token_sort_ratio (s t : string) : Q :=
  indel_ratio (sorted_tokens s) (sorted_tokens t).

(** *** CSV *)

(** The fields of one line; [cur] is the field being read. *)
Fixpoint fields_from (cur : string) (quoted : bool) (s : string) : list string :=
  match s with
  | EmptyString => [cur]
  | String c s' =>
      if Ascii.eqb c (ascii_of_nat 34) then fields_from cur (negb quoted) s'
      else if negb quoted && Ascii.eqb c "," then cur :: fields_from EmptyString false s'
      else fields_from (cur +:+ String c EmptyString) quoted s'
  end.

Definition fields (line : string) : list string :=
  match line with
  | EmptyString => []
  | _ => fields_from EmptyString false line
  end.

Definition csv_field_count (line : string) : option nat :=
  Some (length (fields line)).

Definition parse_cell (s : string) : value :=
  match s with
  | EmptyString => VNaN
  | _ => if Py.all_chars Py.isdigit s
         then VInt (Z.of_N (N.of_uint
                              (default Decimal.Nil (NilZero.uint_of_string s))))
         else VStr s
  end.

Fixpoint parse_rows (header : list string) (idx : nat) (lines : list string)
  : option (list row) :=
  match lines with
  | [] => Some []
  | line :: rest =>
      let fs := fields line in
      if (length header <? length fs)%nat then None
      else
        match parse_rows header (S idx) rest with
        | Some rs =>
            Some (Row idx (list_to_map
                             (combine header
                                (map parse_cell fs
                                 ++ repeat VNaN (length header - length fs))))
                  :: rs)
        | None => None
        end
  end.

Definition read_csv (text : string) : option DataFrame :=
  match Py.splitlines text with
  | [] => None
  | header :: lines =>
      match parse_rows (fields header) 0 lines with
      | Some rs => Some (Frame (fields header) rs)
      | None => None
      end
  end.

#[export] Instance external : External := {
  float_str := Reference.float_str;
  token_sort_ratio := Reference.token_sort_ratio;
  csv_field_count := Reference.csv_field_count;
  read_csv := Reference.read_csv
}.

(** A table from its column labels and the cells of its rows, labelled
    [0], [1], ... as a freshly read table is. *)
Definition table (cols : list string) (data : list (list value)) : DataFrame :=
  Frame cols
        (map (fun ir => Row (fst ir) (list_to_map (combine cols (snd ir))))
             (combine (seq 0 (length data)) data)).

End Reference.

(** ** Example tables *)

Module Examples.

(** One phone number with four digits. *)
Definition short_phone : DataFrame :=
  Reference.table ["phone"] [[VStr "12-34"]].

Definition short_phone_corrected : row :=
  Row 0 (list_to_map [("phone", VStr "0000-1234")]).

(** Two records that differ only in an invalid gender. *)
Definition two_genders : DataFrame :=
  Reference.table ["gender"] [[VStr "X"]; [VStr "Y"]].

(** A record with nothing to report. *)
Definition clean : DataFrame :=
  Reference.table ["gender"] [[VStr "Male"]].

(** A record whose country is the sentinel. *)
Definition unknown_country : DataFrame :=
  Reference.table ["country"] [[VStr "Unknown"]].

(** A single record with a negative age. *)
Definition negative_age : DataFrame :=
  Reference.table ["age"] [[VInt (-5)]].

(** The scenario of the specification: one negative age among 30, 40, 50. *)
Definition scenario_ages : DataFrame :=
  Reference.table ["id"; "age"]
    [[VInt 1; VInt (-5)]; [VInt 2; VInt 30]; [VInt 3; VInt 40]; [VInt 4; VInt 50]].

(** Two ages of exactly 120, one age of 10, one negative age. *)
Definition ages_with_120 : DataFrame :=
  Reference.table ["id"; "age"]
    [[VInt 1; VInt 10]; [VInt 2; VInt 120]; [VInt 3; VInt 120]; [VInt 4; VInt (-5)]].

(** A record with one cell in each corrected column. *)
Definition customer : DataFrame :=
  Reference.table
    ["first_name"; "country"; "age"; "loyalty_points"; "gender";
     "marital_status"; "phone"; "city"; "email"]
    [[VStr "ann"; VStr "india"; VInt 34; VInt (-3); VStr "F";
      VStr "Married"; VStr "555-1234"; VStr "gotham"; VStr "ann@example.org"]].

Definition customer_corrected : row :=
  Row 0 (list_to_map
           [("first_name", VStr "Ann"); ("country", VStr "India");
            ("age", VInt 34); ("loyalty_points", VInt 0);
            ("gender", VStr "Other"); ("marital_status", VStr "Married");
            ("phone", VStr "0555-1234"); ("city", VStr "Gotham");
            ("email", VStr "ann@example.org")]).

(** The country cell [UAE], a member of the vocabulary. *)
Definition uae : DataFrame :=
  Reference.table ["country"] [[VStr "UAE"]].


(** A table without rows that has an age column, and a service whose
    first two replies are empty and whose third call raises. *)
Definition header_only : DataFrame := Reference.table ["age"] [].

Definition fails_at_third : nat -> option string :=
  fun n => if (n =? 3)%nat then None else Some "".

(** Two records that agree on every column. *)
Definition twins : DataFrame :=
  Reference.table ["gender"] [[VStr "Male"]; [VStr "Male"]].

(** A text service that always answers with an empty text, one that
    always returns the table it was sent, and one whose call always
    raises. *)
Definition empty_reply : nat -> option string := fun _ => Some "".
Definition echo_unknown_country : nat -> option string :=
  fun _ => Some ("country" +:+ Enrichment.LF +:+ "Unknown").
Definition failing_service : nat -> option string := fun _ => None.

End Examples.

(** ** Forms used to state the properties *)

(** What a column step does to one row: the cell of the column is
    rewritten when the column is present. *)
Definition update (present : bool) (col : string) (f : value -> value) (r : row) : row :=
  if present then Row (label r) (<[col := f (cell col r)]> (cells r)) else r.

(** What dropping a column does to one row. *)
Definition forget (present : bool) (col : string) (r : row) : row :=
  if present then Row (label r) (delete col (cells r)) else r.

(** The table after one column step of the correction agent. *)
Definition step (col : string) (f : DataFrame -> value -> value) (d : DataFrame)
  : DataFrame :=
  if has_column col d then apply_column col (f d) d else d.

Definition name_columns : list string := ["first_name"; "last_name"; "full_name"].

(** The columns the correction agent rewrites or drops. *)
Definition corrected_columns : list string :=
  ["first_name"; "last_name"; "full_name"; "country"; "age"; "loyalty_points";
   "gender"; "marital_status"; "phone"; "city"; "issues"].

(** The elements of a list at the positions marked [true]. *)
Fixpoint select {A : Type} (keep : list bool) (l : list A) : list A :=
  match keep, l with
  | k :: keep', x :: l' => if k then x :: select keep' l' else select keep' l'
  | _, _ => []
  end.

(** The positions [keep_first] keeps. *)
Fixpoint keep_mask (cols : list string) (seen : list row) (rs : list row) : list bool :=
  match rs with
  | [] => []
  | r :: rs' =>
      if existsb (same_row cols r) seen then false :: keep_mask cols seen rs'
      else true :: keep_mask cols (r :: seen) rs'
  end.

Section Stages.
Context `{External}.

(** The table after the name columns are standardized. *)
Definition named (df : DataFrame) : DataFrame :=
  fold_left (fun d col => step col (fun _ => Correction.standard_name) d) name_columns df.

(** The table after the duplicate rows are dropped. *)
Definition deduplicated (df : DataFrame) : DataFrame := drop_duplicates (named df).

(** The median the age step uses. *)
Definition median_used (df : DataFrame) : value :=
  Correction.median_age
    (step "country" (fun _ => Correction.match_country) (deduplicated df)).

(** What the steps before and after the de-duplication do to a row. *)
Definition before_dedup (df : DataFrame) (r : row) : row :=
  update (has_column "full_name" df) "full_name" Correction.standard_name
    (update (has_column "last_name" df) "last_name" Correction.standard_name
       (update (has_column "first_name" df) "first_name" Correction.standard_name r)).

Definition after_dedup (df : DataFrame) (r : row) : row :=
  forget (has_column "issues" df) "issues"
    (update (has_column "city" df) "city" Correction.match_city
    (update (has_column "phone" df) "phone" Correction.standard_phone
    (update (has_column "marital_status" df) "marital_status" Correction.standard_marital
    (update (has_column "gender" df) "gender" Correction.standard_gender
    (update (has_column "loyalty_points" df) "loyalty_points" Correction.standard_loyalty
    (update (has_column "age" df) "age" (Correction.standard_age (median_used df))
    (update (has_column "country" df) "country" Correction.match_country r))))))).

End Stages.

(** A series that does not give the row the tag [Invalid Phone]. *)
Definition never_invalid_phone (r : row) (series : row -> string) : Prop :=
  series r <> "Invalid Phone".

(** The ages the specification calls plausible: numeric and in (0, 120]. *)
Definition plausible_per_spec (x : value) : bool :=
  is_int_or_float x && (num_gt x 0 && num_le x 120).

(** A cased character: a letter. *)
Definition cased (c : ascii) : bool := Py.islower c || Py.isupper c.

(** A text that does not start with a space. *)
Definition starts_clean (s : string) : bool :=
  match s with
  | EmptyString => true
  | String c _ => negb (Py.isspace c)
  end.

(** A cell of a canonical column: a member of the vocabulary, or the
    sentinel. *)
Definition canonical (vocabulary : list string) (x : value) : Prop :=
  x = VStr "Unknown" \/ Detection.isin vocabulary x = true.

(** A cell that holds a number in (0, 120], and one that holds a number
    that is at least 0. *)
Definition plausible_age (x : value) : Prop :=
  exists q, py_num x = Some q /\ (0 < q /\ q <= 120)%Q.

Definition non_negative (x : value) : Prop :=
  exists q, py_num x = Some q /\ (0 <= q)%Q.

(** What holds of the table a run ends with, by the way the loop was left:
    after "No correction needed" the table is the one detection returned,
    with an Issues Column in which no cell carries an issue; after "No
    enrichment needed" it is the one correction returned, without an Issues
    Column. *)
Definition exit_condition `{External} (e : Cli.exit) (st : Cli.state) : Prop :=
  match e with
  | Cli.NoIssuesLeft =>
      has_column "issues" (Cli.df st) = true
      /\ forall r, In r (rows (Cli.df st)) ->
                   Py.strip (str (cell "issues" r)) = ""
  | Cli.CorrectionSufficed => has_column "issues" (Cli.df st) = false
  | Cli.IterationsUsedUp => True
  end.




(** A series that does not give the row a given tag. *)
Definition never_tag (tag : string) (r : row) (series : row -> string) : Prop :=
  series r <> tag.

(** The calls of [n] full iterations: detection, correction, enrichment. *)
Fixpoint cycles (n : nat) : list Cli.agent :=
  match n with
  | O => []
  | S n' => cycles n' ++ [Cli.DetectionAgent; Cli.CorrectionAgent; Cli.EnrichmentAgent]
  end.

(** The tags that can be left on a record of a corrected table. *)
Definition tags_left_by_correction : list string :=
  ["Invalid Email"; "Invalid Age"; "Non-canonical Country"; "Duplicate"].

(** The text has the character. *)
Fixpoint has_char (c : ascii) (s : string) : bool :=
  match s with
  | EmptyString => false
  | String c' s' => Ascii.eqb c c' || has_char c s'
  end.

(** ** Further derived forms *)

(** The calls that end a run, after its full iterations: a detection,
    followed by a correction when correction sufficed. *)
Definition last_calls (o : Cli.outcome) : list Cli.agent :=
  match o with
  | Cli.Finished Cli.CorrectionSufficed _ => [Cli.DetectionAgent; Cli.CorrectionAgent]
  | _ => [Cli.DetectionAgent]
  end.

(** A run that made [k] full iterations before its last calls: the calls
    in order, the number of iterations entered, and how [k] depends on the
    way the run ended.  A run that failed did so on a table without rows. *)
Definition run_trace (o : Cli.outcome) (k : nat) : Prop :=
  let st := Cli.state_of o in
  (k <= Cli.max_iterations)%nat
  /\ Cli.calls st = cycles k ++ last_calls o
  /\ Cli.iterations st = Nat.min (S k) Cli.max_iterations
  /\ match o with
     | Cli.Finished Cli.IterationsUsedUp _ => k = Cli.max_iterations
     | Cli.Finished _ _ => (k < Cli.max_iterations)%nat
     | Cli.Failed _ => rows (Cli.df st) = []
     end.

(** The Issues Column of the table a run writes: absent after "No
    enrichment needed", present otherwise. *)
Definition issues_column_written (e : Cli.exit) : bool :=
  match e with
  | Cli.CorrectionSufficed => false
  | _ => true
  end.

(** The series gives the row no tag, or one of the allowed ones. *)
Definition tag_within (allowed : list string) (r : row) (series : row -> string) : Prop :=
  series r = "" \/ In (series r) allowed.

(** The character of a code fence. *)
Definition backtick : ascii := "`"%char.

(** The reply [body] inside a [csv] code fence. *)
Definition fenced (body : string) : string :=
  "```csv" +:+ Enrichment.LF +:+ body +:+ Enrichment.LF +:+ "```".

(** The end of a matched text: nothing, or one line feed. *)
Definition line_end (e : string) : Prop := e = "" \/ e = Enrichment.LF.

(** An entry of correction for a column, listing at least one cell. *)
Definition column_change (e : log_entry) : Prop :=
  match e with
  | Standardized _ changed => changed <> []
  | _ => False
  end.




(** * Properties *)

(** ** Rows *)

Lemma cell_update_same col f r : cell col (update true col f r) = f (cell col r).
Proof. unfold cell, update; simpl. by rewrite lookup_insert_eq. Qed.

Lemma lookup_update_other p col col' f r :
  col <> col' -> cells (update p col f r) !! col' = cells r !! col'.
Proof. intros Hne. destruct p; simpl; [by rewrite lookup_insert_ne | done]. Qed.

Lemma cell_update_other p col col' f r :
  col <> col' -> cell col' (update p col f r) = cell col' r.
Proof. intros Hne. unfold cell. by rewrite lookup_update_other. Qed.

Lemma lookup_forget_other p col col' r :
  col <> col' -> cells (forget p col r) !! col' = cells r !! col'.
Proof. intros Hne. destruct p; simpl; [by rewrite lookup_delete_ne | done]. Qed.

Lemma cell_forget_other p col col' r :
  col <> col' -> cell col' (forget p col r) = cell col' r.
Proof. intros Hne. unfold cell. by rewrite lookup_forget_other. Qed.

Lemma label_update p col f r : label (update p col f r) = label r.
Proof. by destruct p. Qed.

Lemma label_forget p col r : label (forget p col r) = label r.
Proof. by destruct p. Qed.

Lemma mem_In x xs : Py.mem x xs = true <-> In x xs.
Proof.
  unfold Py.mem. rewrite existsb_exists. split.
  - intros (y & Hy & Heq). apply String.eqb_eq in Heq. by subst.
  - intros Hin. exists x. split; [done | apply String.eqb_refl].
Qed.

(** ** Column steps on tables *)

Section Frames.
Context `{External}.

Lemma columns_step col f d : columns (step col f d) = columns d.
Proof.
  unfold step. destruct (has_column col d) eqn:Hc; [|done].
  unfold apply_column, assign; simpl. by rewrite Hc.
Qed.

Lemma rows_step col f d :
  rows (step col f d) = map (update (has_column col d) col (f d)) (rows d).
Proof.
  unfold step. destruct (has_column col d) eqn:Hc; simpl.
  - done.
  - by rewrite map_id.
Qed.

Lemma has_column_step col' col f d : has_column col' (step col f d) = has_column col' d.
Proof. unfold has_column. by rewrite columns_step. Qed.

Lemma fst_standardize col what f st :
  fst (Correction.standardize col what f st) = step col f (fst st).
Proof.
  destruct st as [d logs]. unfold Correction.standardize, step; simpl.
  by destruct (has_column col d).
Qed.

Lemma fst_remove_duplicates st :
  fst (Correction.remove_duplicates st) = drop_duplicates (fst st).
Proof. by destruct st. Qed.

Lemma fst_drop_issues st :
  fst (Correction.drop_issues st) =
  if has_column "issues" (fst st) then drop_column "issues" (fst st) else fst st.
Proof. destruct st as [d logs]; simpl. by destruct (has_column "issues" d). Qed.

End Frames.

(** ** The table the correction agent returns, stage by stage *)

Section Stages.
Context `{External}.

Lemma columns_named df : columns (named df) = columns df.
Proof. unfold named; simpl. by rewrite !columns_step. Qed.

Lemma rows_named df : rows (named df) = map (before_dedup df) (rows df).
Proof.
  unfold named, before_dedup; simpl.
  rewrite !rows_step, !has_column_step, !map_map. done.
Qed.

Lemma columns_deduplicated df : columns (deduplicated df) = columns df.
Proof. unfold deduplicated, drop_duplicates; simpl. apply columns_named. Qed.

Lemma rows_deduplicated df :
  rows (deduplicated df) = keep_first (columns df) [] (map (before_dedup df) (rows df)).
Proof. unfold deduplicated, drop_duplicates; simpl. by rewrite columns_named, rows_named. Qed.

Lemma has_column_deduplicated col df :
  has_column col (deduplicated df) = has_column col df.
Proof. unfold has_column. by rewrite columns_deduplicated. Qed.

Lemma fst_names st :
  fst (fold_left Correction.standardize_name name_columns st) = named (fst st).
Proof.
  unfold named, name_columns; simpl.
  unfold Correction.standardize_name. by rewrite !fst_standardize.
Qed.

(** The table of [correct_issues], without the log. *)
Lemma frame_eta (d : DataFrame) : d = Frame (columns d) (rows d).
Proof. by destruct d. Qed.

Lemma filter_issues_absent df :
  has_column "issues" df = false ->
  List.filter (fun c => negb (String.eqb c "issues")) (columns df) = columns df.
Proof.
  intros Hi. apply forallb_filter_id, forallb_forall. intros c Hc.
  destruct (String.eqb_spec c "issues") as [->|]; [|done].
  apply mem_In in Hc. unfold has_column in Hi. congruence.
Qed.

(** The table of [correct_issues], without the log. *)
Theorem correct_issues_frame df :
  fst (Correction.correct_issues df) =
  Frame (List.filter (fun c => negb (String.eqb c "issues")) (columns df))
        (map (after_dedup df) (rows (deduplicated df))).
Proof.
  unfold Correction.correct_issues.
  rewrite fst_drop_issues, !fst_standardize, fst_remove_duplicates.
  change (fold_left Correction.standardize_name _ _)
    with (fold_left Correction.standardize_name name_columns (df, [])).
  rewrite fst_names; simpl fst. fold (deduplicated df). fold (median_used df).
  rewrite !has_column_step.
  unfold after_dedup.
  destruct (has_column "issues" (deduplicated df)) eqn:Hi;
    rewrite has_column_deduplicated in Hi; rewrite Hi.
  - unfold drop_column. rewrite !columns_step. rewrite !rows_step.
    rewrite !has_column_step.
    rewrite columns_deduplicated, !has_column_deduplicated, !map_map. done.
  - etrans; [apply frame_eta|].
    rewrite !columns_step. rewrite !rows_step. rewrite !has_column_step.
    rewrite columns_deduplicated, !has_column_deduplicated, !map_map.
    by rewrite filter_issues_absent.
Qed.

End Stages.

(** ** De-duplication as a selection of rows *)

Lemma keep_first_select cols seen rs :
  keep_first cols seen rs = select (keep_mask cols seen rs) rs.
Proof.
  revert seen. induction rs as [|r rs IH]; intros seen; simpl; [done|].
  destruct (existsb (same_row cols r) seen); simpl; by rewrite IH.
Qed.

Lemma length_keep_mask cols seen rs : length (keep_mask cols seen rs) = length rs.
Proof.
  revert seen. induction rs as [|r rs IH]; intros seen; simpl; [done|].
  destruct (existsb (same_row cols r) seen); simpl; by rewrite IH.
Qed.

Lemma map_select {A B : Type} (g : A -> B) keep (l : list A) :
  map g (select keep l) = select keep (map g l).
Proof.
  revert l. induction keep as [|k keep IH]; intros [|x l]; simpl; try done.
  destruct k; simpl; by rewrite IH.
Qed.

Lemma In_keep_first cols seen rs r : In r (keep_first cols seen rs) -> In r rs.
Proof.
  revert seen. induction rs as [|r0 rs IH]; intros seen; simpl; [done|].
  destruct (existsb (same_row cols r0) seen); simpl.
  - intros Hin. right. by eapply IH.
  - intros [->|Hin]; [by left | right; by eapply IH].
Qed.

Section Rows.
Context `{External}.

(** Every row of the corrected table is a row of the input taken through
    the steps. *)
Lemma corrected_row_inv df r' :
  In r' (rows (fst (Correction.correct_issues df))) ->
  exists r, In r (rows df) /\ r' = after_dedup df (before_dedup df r).
Proof.
  rewrite correct_issues_frame. cbn [rows]. rewrite rows_deduplicated.
  intros (r0 & <- & Hin)%in_map_iff.
  apply In_keep_first, in_map_iff in Hin as (r & <- & Hin). eauto.
Qed.

Lemma cell_update p col col' f r :
  cell col' (update p col f r) =
  if p && String.eqb col col' then f (cell col' r) else cell col' r.
Proof.
  destruct p; simpl; [|done].
  destruct (String.eqb_spec col col') as [->|Hne].
  - apply cell_update_same.
  - by apply (cell_update_other true).
Qed.

End Rows.

Ltac cells :=
  unfold after_dedup, before_dedup;
  repeat first
    [ rewrite cell_forget_other by discriminate
    | rewrite lookup_forget_other by discriminate
    | rewrite lookup_update_other by discriminate
    | rewrite label_forget
    | rewrite label_update
    | rewrite cell_update; simpl String.eqb;
      rewrite ?andb_false_r, ?andb_true_r ].

Section Cells.
Context `{External}.

Lemma cell_phone df r :
  cell "phone" (after_dedup df (before_dedup df r)) =
  if has_column "phone" df then Correction.standard_phone (cell "phone" r)
  else cell "phone" r.
Proof. by cells. Qed.

Lemma cell_gender df r :
  cell "gender" (after_dedup df (before_dedup df r)) =
  if has_column "gender" df then Correction.standard_gender (cell "gender" r)
  else cell "gender" r.
Proof. by cells. Qed.

Lemma cell_marital df r :
  cell "marital_status" (after_dedup df (before_dedup df r)) =
  if has_column "marital_status" df
  then Correction.standard_marital (cell "marital_status" r)
  else cell "marital_status" r.
Proof. by cells. Qed.

Lemma cell_loyalty df r :
  cell "loyalty_points" (after_dedup df (before_dedup df r)) =
  if has_column "loyalty_points" df
  then Correction.standard_loyalty (cell "loyalty_points" r)
  else cell "loyalty_points" r.
Proof. by cells. Qed.

Lemma cell_country df r :
  cell "country" (after_dedup df (before_dedup df r)) =
  if has_column "country" df then Correction.match_country (cell "country" r)
  else cell "country" r.
Proof. by cells. Qed.

Lemma cell_city df r :
  cell "city" (after_dedup df (before_dedup df r)) =
  if has_column "city" df then Correction.match_city (cell "city" r)
  else cell "city" r.
Proof. by cells. Qed.

Lemma cell_age df r :
  cell "age" (after_dedup df (before_dedup df r)) =
  if has_column "age" df
  then Correction.standard_age (median_used df) (cell "age" r)
  else cell "age" r.
Proof. by cells. Qed.

End Cells.

(** ** Phone numbers *)

Lemma all_chars_only_digits s : Py.all_chars Py.isdigit (Py.only_digits s) = true.
Proof.
  induction s as [|c s IH]; simpl; [done|].
  destruct (Py.isdigit c) eqn:Hc; simpl; [by rewrite Hc|done].
Qed.

Lemma all_chars_app p s t :
  Py.all_chars p (s +:+ t) = Py.all_chars p s && Py.all_chars p t.
Proof. induction s as [|c s IH]; simpl; [done|]. by rewrite IH, andb_assoc. Qed.

Lemma all_chars_replicate p n c : p c = true -> Py.all_chars p (Py.replicate_char n c) = true.
Proof. intros Hc. induction n; simpl; [done|]. by rewrite Hc, IHn. Qed.

Lemma length_replicate n c : String.length (Py.replicate_char n c) = n.
Proof. induction n; simpl; congruence. Qed.

Lemma length_append s t : String.length (s +:+ t) = (String.length s + String.length t)%nat.
Proof. induction s as [|c s IH]; simpl; [done | by rewrite IH]. Qed.

Lemma length_drop n s : String.length (Py.drop n s) = (String.length s - n)%nat.
Proof. revert s. induction n; intros [|c s]; simpl; auto. Qed.

Lemma length_take n s : String.length (Py.take n s) = Nat.min n (String.length s).
Proof. revert s. induction n; intros [|c s]; simpl; auto. Qed.

Lemma all_chars_drop p n s : Py.all_chars p s = true -> Py.all_chars p (Py.drop n s) = true.
Proof.
  revert s. induction n; intros [|c s]; simpl; try done.
  intros [_ Hs]%andb_true_iff. by apply IHn.
Qed.

Lemma all_chars_take p n s : Py.all_chars p s = true -> Py.all_chars p (Py.take n s) = true.
Proof.
  revert s. induction n; intros [|c s]; simpl; try done.
  intros [Hc Hs]%andb_true_iff. by rewrite Hc, IHn.
Qed.

Lemma four_digits_match a b :
  String.length a = 4%nat -> String.length b = 4%nat ->
  Py.all_chars Py.isdigit a = true -> Py.all_chars Py.isdigit b = true ->
  Re.matches Detection.PHONE_REGEX (a +:+ "-" +:+ b) = true.
Proof.
  destruct a as [|a1 [|a2 [|a3 [|a4 [|? ?]]]]]; try discriminate.
  destruct b as [|b1 [|b2 [|b3 [|b4 [|? ?]]]]]; try discriminate.
  intros _ _. simpl.
  intros (Ha1 & (Ha2 & (Ha3 & (Ha4 & _)%andb_true_iff)%andb_true_iff)%andb_true_iff)%andb_true_iff.
  intros (Hb1 & (Hb2 & (Hb3 & (Hb4 & _)%andb_true_iff)%andb_true_iff)%andb_true_iff)%andb_true_iff.
  unfold Re.matches, Detection.PHONE_REGEX. simpl.
  rewrite Ha1, Ha2, Ha3, Ha4, Hb1, Hb2, Hb3, Hb4. simpl.
  by rewrite !orb_true_r.
Qed.

Section Phone.
Context `{External}.

Lemma length_phone_digits x : (8 <= String.length (Correction.phone_digits x))%nat.
Proof.
  unfold Correction.phone_digits, Py.rjust. rewrite length_append, length_replicate. lia.
Qed.

Lemma all_chars_phone_digits x :
  Py.all_chars Py.isdigit (Correction.phone_digits x) = true.
Proof.
  unfold Correction.phone_digits, Py.rjust.
  rewrite all_chars_app, all_chars_only_digits, all_chars_replicate; done.
Qed.

Lemma phone_format_matches t :
  (8 <= String.length t)%nat -> Py.all_chars Py.isdigit t = true ->
  Re.matches Detection.PHONE_REGEX (Correction.phone_format t) = true.
Proof.
  intros Hlen Hd. unfold Correction.phone_format.
  destruct (Nat.leb_spec 8 (String.length t)) as [_|]; [|lia].
  apply four_digits_match.
  - unfold Py.slice_from_end. rewrite length_take, length_drop. lia.
  - unfold Py.last_chars. rewrite length_drop. lia.
  - unfold Py.slice_from_end. by apply all_chars_take, all_chars_drop.
  - unfold Py.last_chars. by apply all_chars_drop.
Qed.

Lemma standard_phone_matches x :
  Re.matches Detection.PHONE_REGEX (str (Correction.standard_phone x)) = true.
Proof.
  simpl. apply phone_format_matches;
    [apply length_phone_digits | apply all_chars_phone_digits].
Qed.

(** A cell with fewer than eight digits: the digits are padded on the left
    with zeros and split four and four. *)
Lemma standard_phone_short x :
  let digits := Py.only_digits (str x) in
  let padded := Py.replicate_char (8 - String.length digits) "0" +:+ digits in
  (String.length digits < 8)%nat ->
  Correction.standard_phone x = VStr (Py.take 4 padded +:+ "-" +:+ Py.drop 4 padded).
Proof.
  intros digits padded Hlen.
  unfold Correction.standard_phone, Correction.phone_digits, Py.rjust.
  fold digits. fold padded.
  assert (Hp : String.length padded = 8%nat).
  { unfold padded. rewrite length_append, length_replicate. lia. }
  unfold Correction.phone_format, Py.slice_from_end, Py.last_chars.
  rewrite Hp. done.
Qed.

Lemma check_never_invalid_phone df col mask tag what acc r :
  (tag <> "Invalid Phone" \/ mask r = false) ->
  Forall (never_invalid_phone r) (fst acc) ->
  Forall (never_invalid_phone r) (fst (Detection.check df col mask tag what acc)).
Proof.
  intros Htag Hacc. unfold Detection.check.
  destruct (has_column col df); [|done]. simpl.
  apply Forall_app. split; [done|]. constructor; [|done].
  unfold never_invalid_phone, Detection.tag_series.
  destruct (mask r) eqn:Hm; [|done]. destruct Htag; [done|congruence].
Qed.

Lemma run_rules_never_invalid_phone df r :
  Detection.invalid_phone_mask r = false ->
  Forall (never_invalid_phone r) (fst (Detection.run_rules df)).
Proof.
  intros Hr. unfold Detection.run_rules. simpl fold_left.
  unfold Detection.check_name, Detection.check_duplicates.
  repeat first
    [ apply check_never_invalid_phone; [first [by left | by right] |]
    | by apply Forall_nil ].
  simpl. apply Forall_app. split.
  - repeat first
      [ apply check_never_invalid_phone; [first [by left | by right] |]
      | by apply Forall_nil ].
  - constructor; [|done]. unfold never_invalid_phone, Detection.tag_series.
    by destruct (duplicated df r).
Qed.

Lemma no_invalid_phone_tag df r :
  Detection.invalid_phone_mask r = false ->
  ~ In "Invalid Phone" (Detection.row_tags (fst (Detection.run_rules df)) r).
Proof.
  intros Hr Hin. unfold Detection.row_tags in Hin.
  apply filter_In in Hin. destruct Hin as [Hin _].
  apply in_map_iff in Hin. destruct Hin as (series & Heq & Hin).
  pose proof (run_rules_never_invalid_phone df r Hr) as Hall.
  rewrite Forall_forall in Hall. apply (Hall series); [|done].
  by apply list_elem_of_In.
Qed.

End Phone.

(** ** Title case and stripping *)

Ltac each_char c := destruct c as [[] [] [] [] [] [] [] []]; vm_compute; reflexivity.




Lemma lower_lower c : Py.lower_char (Py.lower_char c) = Py.lower_char c.
Proof. each_char c. Qed.

Lemma isspace_upper c : Py.isspace (Py.upper_char c) = Py.isspace c.
Proof. each_char c. Qed.

Lemma isspace_lower c : Py.isspace (Py.lower_char c) = Py.isspace c.
Proof. each_char c. Qed.

Lemma isspace_not_cased c : Py.isspace c = true -> cased c = false.
Proof. destruct c as [[] [] [] [] [] [] [] []]; vm_compute; congruence. Qed.

Lemma title_from_unfold p c s :
  Py.title_from p (String c s) =
  if cased c
  then String (if p then Py.lower_char c else Py.upper_char c) (Py.title_from true s)
  else String c (Py.title_from false s).
Proof. reflexivity. Qed.


Lemma title_from_empty p s : Py.title_from p s = "" <-> s = "".
Proof.
  destruct s as [|c s]; [done|]. rewrite title_from_unfold.
  by destruct (cased c).
Qed.

(** The first character of the title-cased text is a space exactly when
    the first character of the text is. *)
Lemma title_from_lstrip s :
  Py.lstrip (Py.title_from false s) = Py.title_from false (Py.lstrip s).
Proof.
  induction s as [|c s IH]; [done|].
  rewrite title_from_unfold. cbn [Py.lstrip].
  destruct (Py.isspace c) eqn:Hs.
  - rewrite (isspace_not_cased c Hs). cbn [Py.lstrip]. by rewrite Hs.
  - rewrite title_from_unfold. destruct (cased c); cbn [Py.lstrip].
    + by rewrite isspace_upper, Hs.
    + by rewrite Hs.
Qed.

Lemma rstrip_unfold c s :
  Py.rstrip (String c s) =
  match Py.rstrip s with
  | EmptyString => if Py.isspace c then EmptyString else String c EmptyString
  | r => String c r
  end.
Proof. reflexivity. Qed.

Lemma title_from_rstrip p s :
  Py.rstrip (Py.title_from p s) = Py.title_from p (Py.rstrip s).
Proof.
  revert p. induction s as [|c s IH]; intros p; [done|].
  rewrite title_from_unfold, rstrip_unfold.
  destruct (cased c) eqn:Hc.
  - rewrite rstrip_unfold, IH.
    destruct (Py.rstrip s) as [|c' r] eqn:Hr.
    + cbn [Py.title_from].
      assert (Hs : Py.isspace c = false).
      { destruct (Py.isspace c) eqn:Hs; [|done].
        apply isspace_not_cased in Hs. congruence. }
      destruct p.
      * rewrite isspace_lower, Hs, title_from_unfold, Hc. done.
      * rewrite isspace_upper, Hs, title_from_unfold, Hc. done.
    + rewrite (title_from_unfold p c), Hc.
      destruct (Py.title_from true (String c' r)) eqn:Ht; [|done].
      by apply title_from_empty in Ht.
  - rewrite rstrip_unfold, IH.
    destruct (Py.rstrip s) as [|c' r] eqn:Hr.
    + cbn [Py.title_from]. destruct (Py.isspace c); [done|].
      by rewrite title_from_unfold, Hc.
    + rewrite (title_from_unfold p c), Hc.
      destruct (Py.title_from false (String c' r)) eqn:Ht; [|done].
      by apply title_from_empty in Ht.
Qed.

Lemma title_strip s : Py.title (Py.strip s) = Py.strip (Py.title s).
Proof.
  unfold Py.title, Py.strip. by rewrite <- title_from_rstrip, title_from_lstrip.
Qed.

Lemma starts_clean_lstrip s : starts_clean (Py.lstrip s) = true.
Proof.
  induction s as [|c s IH]; [done|]. cbn [Py.lstrip].
  destruct (Py.isspace c) eqn:Hs; [done|]. simpl. by rewrite Hs.
Qed.

Lemma lstrip_clean s : starts_clean s = true -> Py.lstrip s = s.
Proof. destruct s as [|c s]; [done|]. simpl. by destruct (Py.isspace c). Qed.

Lemma starts_clean_rstrip s : starts_clean s = true -> starts_clean (Py.rstrip s) = true.
Proof.
  destruct s as [|c s]; [done|]. rewrite rstrip_unfold. cbn [starts_clean].
  intros Hc. destruct (Py.rstrip s); [|exact Hc].
  destruct (Py.isspace c) eqn:Hs; [done|]. cbn [starts_clean]. by rewrite Hs.
Qed.

Lemma rstrip_idempotent s : Py.rstrip (Py.rstrip s) = Py.rstrip s.
Proof.
  induction s as [|c s IH]; [done|]. rewrite rstrip_unfold.
  destruct (Py.rstrip s) as [|c' r] eqn:Hr.
  - destruct (Py.isspace c) eqn:Hs; [done|]. rewrite rstrip_unfold. simpl. by rewrite Hs.
  - rewrite rstrip_unfold, IH. done.
Qed.

Lemma strip_idempotent s : Py.strip (Py.strip s) = Py.strip s.
Proof.
  unfold Py.strip. rewrite lstrip_clean.
  - apply rstrip_idempotent.
  - apply starts_clean_rstrip, starts_clean_lstrip.
Qed.


(** ** Numbers *)

Lemma Qltb_lt a b : Qltb a b = true <-> (a < b)%Q.
Proof.
  unfold Qltb. rewrite negb_true_iff, <- not_true_iff_false, Qle_bool_iff.
  split; [apply Qnot_le_lt | apply Qlt_not_le].
Qed.

Lemma Qltb_ge a b : Qltb a b = false <-> (b <= a)%Q.
Proof. unfold Qltb. by rewrite negb_false_iff, Qle_bool_iff. Qed.

Lemma Qle_bool_gt a b : Qle_bool a b = false <-> (b < a)%Q.
Proof.
  rewrite <- not_true_iff_false, Qle_bool_iff.
  split; [apply Qnot_le_lt | apply Qlt_not_le].
Qed.

Lemma In_insert_sorted x y xs : In y (insert_sorted x xs) <-> y = x \/ In y xs.
Proof.
  induction xs as [|z xs IH]; simpl; [intuition congruence|].
  destruct (Qle_bool x z); simpl; [intuition congruence|]. rewrite IH. tauto.
Qed.

Lemma In_sort y xs : In y (sort xs) <-> In y xs.
Proof.
  induction xs as [|x xs IH]; simpl; [done|].
  rewrite In_insert_sorted, IH. intuition congruence.
Qed.

Lemma length_insert_sorted x xs : length (insert_sorted x xs) = S (length xs).
Proof.
  induction xs as [|z xs IH]; simpl; [done|].
  destruct (Qle_bool x z); simpl; by rewrite ?IH.
Qed.

Lemma length_sort xs : length (sort xs) = length xs.
Proof.
  induction xs as [|x xs IH]; simpl; [done|]. by rewrite length_insert_sorted, IH.
Qed.


(** The median of values strictly between two bounds lies strictly between
    them. *)
Lemma median_between (lo hi : Q) xs :
  xs <> [] -> (forall x, In x xs -> lo < x /\ x < hi)%Q ->
  exists m, median xs = Some m /\ (lo < m /\ m < hi)%Q.
Proof.
  intros Hne Hall. unfold median.
  assert (Hnth : forall i, (i < length (sort xs))%nat ->
                           (lo < nth i (sort xs) 0 /\ nth i (sort xs) 0 < hi)%Q).
  { intros i Hi. apply Hall, In_sort, nth_In, Hi. }
  assert (Hlen : (0 < length (sort xs))%nat).
  { rewrite length_sort. destruct xs; [done | simpl; lia]. }
  destruct (length (sort xs)) as [|n] eqn:Hn; [lia|].
  assert (Hhalf : (S n / 2 < S n)%nat) by (apply Nat.div_lt; lia).
  destruct (Nat.even (S n)) eqn:Heven.
  - eexists; split; [done|]. rewrite Qred_correct.
    destruct (Hnth (S n / 2 - 1)%nat) as [? ?]; [lia|].
    destruct (Hnth (S n / 2)%nat) as [? ?]; [lia|].
    split.
    + apply Qlt_shift_div_l; [done|]. lra.
    + apply Qlt_shift_div_r; [done|]. lra.
  - eexists; split; [done|]. by apply Hnth.
Qed.

(** ** Cells *)

Lemma same_cell_refl x : same_cell x x = true.
Proof.
  destruct x as [|b|n|q|s]; simpl; try done.
  - apply Qeq_bool_iff. reflexivity.
  - apply Qeq_bool_iff. reflexivity.
  - apply Qeq_bool_iff. reflexivity.
  - apply String.eqb_refl.
Qed.

Lemma same_row_refl cols r : same_row cols r r = true.
Proof. apply forallb_forall. intros c _. apply same_cell_refl. Qed.

Lemma same_cell_num a b :
  same_cell a b = true ->
  forall p, py_num a = Some p -> exists q, py_num b = Some q /\ (p == q)%Q.
Proof.
  intros Hab p Hp.
  destruct a as [|x|x|x|x]; try discriminate;
    destruct b as [|y|y|y|y]; try discriminate; simpl in *;
    injection Hp as <-; eexists; (split; [done|]); by apply Qeq_bool_iff.
Qed.

(** ** The values the correction steps produce *)

Section Canonical.
Context `{External}.

Lemma better_choice query cs best :
  In (fst (fold_left (Correction.better query) cs best)) (fst best :: cs).
Proof.
  revert best. induction cs as [|c cs IH]; intros best; simpl; [by left|].
  destruct (IH (Correction.better query best c)) as [Heq|Hin].
  - rewrite <- Heq. unfold Correction.better.
    destruct (Qltb _ _); simpl; [right; by left | by left].
  - right. by right.
Qed.

Lemma extractOne_choice query choices found score :
  Correction.extractOne query choices = Some (found, score) -> In found choices.
Proof.
  destruct choices as [|c cs]; simpl; [done|]. intros [= Heq].
  pose proof (better_choice query cs (c, token_sort_ratio query c)) as Hin.
  rewrite Heq in Hin. done.
Qed.

Lemma fuzzy_match_canonical vocabulary threshold val :
  canonical vocabulary (Correction.fuzzy_match vocabulary threshold val).
Proof.
  unfold Correction.fuzzy_match, canonical.
  destruct (_ || _ || _); [by left|].
  destruct (Py.mem _ vocabulary) eqn:Hmem; [by right|].
  destruct (Correction.extractOne _ _) as [[found score]|] eqn:He; [|by left].
  destruct (Qltb threshold score); [|by left].
  right. simpl. apply mem_In. by eapply extractOne_choice.
Qed.

Lemma standard_gender_isin x :
  Detection.isin Correction.GENDERS (Correction.standard_gender x) = true.
Proof.
  unfold Correction.standard_gender.
  by destruct (Detection.isin Correction.GENDERS x) eqn:Hx.
Qed.

Lemma standard_marital_isin x :
  Detection.isin Correction.MARITAL_STATUSES (Correction.standard_marital x) = true.
Proof.
  unfold Correction.standard_marital.
  by destruct (Detection.isin Correction.MARITAL_STATUSES x) eqn:Hx.
Qed.

Lemma standard_loyalty_non_negative x : non_negative (Correction.standard_loyalty x).
Proof.
  unfold Correction.standard_loyalty, non_negative.
  destruct x as [|b|n|q|s]; simpl.
  - by exists 0%Q.
  - destruct b; vm_compute; eexists; (split; [done|]); discriminate.
  - unfold num_lt; simpl. destruct (Qltb (inject_Z n) 0) eqn:Hn; simpl.
    + by exists 0%Q.
    + eexists; split; [done|]. by apply Qltb_ge.
  - unfold num_lt; simpl. destruct (Qltb q 0) eqn:Hq; simpl.
    + by exists 0%Q.
    + eexists; split; [done|]. by apply Qltb_ge.
  - by exists 0%Q.
Qed.

(** The age rule keeps a cell only when it holds a number in (0, 120]. *)
Lemma standard_age_kept x :
  (isnull x || negb (is_int_or_float x) || num_le x 0 || num_gt x 120) = false ->
  plausible_age x.
Proof.
  unfold plausible_age, num_le, num_gt.
  destruct x as [|b|n|q|s]; simpl; try done.
  - destruct b; simpl; [|done]. intros _. by exists 1%Q.
  - intros [Hle Hgt]%orb_false_iff. eexists; split; [done|].
    apply Qle_bool_gt in Hle. apply Qltb_ge in Hgt. done.
  - intros [Hle Hgt]%orb_false_iff. eexists; split; [done|].
    apply Qle_bool_gt in Hle. apply Qltb_ge in Hgt. done.
Qed.

Lemma counts_for_median_num x :
  Correction.counts_for_median x = true ->
  exists q, py_num x = Some q /\ (0 < q /\ q < 120)%Q.
Proof.
  unfold Correction.counts_for_median, num_gt, num_lt.
  destruct (py_num x) as [q|]; [|by rewrite andb_false_r].
  intros [_ [Hgt Hlt]%andb_true_iff]%andb_true_iff.
  exists q. split; [done|]. split; by apply Qltb_lt.
Qed.

Lemma counts_for_median_same a b :
  same_cell a b = true ->
  Correction.counts_for_median a = true -> Correction.counts_for_median b = true.
Proof.
  intros Hab Ha. destruct (counts_for_median_num a Ha) as (p & Hp & Hlo & Hhi).
  destruct (same_cell_num a b Hab p Hp) as (q & Hq & Hpq).
  unfold Correction.counts_for_median, num_gt, num_lt. rewrite Hq.
  assert (Hb : is_int_or_float b = true) by (by destruct b).
  rewrite Hb. simpl. apply andb_true_iff. split; apply Qltb_lt; by rewrite <- Hpq.
Qed.

(** The median of the ages that count, when there is one. *)
Lemma median_of_counting ages :
  (exists x, In x ages /\ Correction.counts_for_median x = true) ->
  exists m, median (omap py_num (List.filter Correction.counts_for_median ages)) = Some m
            /\ (0 < m /\ m < 120)%Q.
Proof.
  intros (x & Hx & Hc). apply median_between.
  - destruct (counts_for_median_num x Hc) as (q & Hq & _).
    assert (Hin : q ∈ omap py_num (List.filter Correction.counts_for_median ages)).
    { apply list_elem_of_omap. exists x. split; [|done].
      apply list_elem_of_In, filter_In. done. }
    intros Hnil. rewrite Hnil in Hin. by apply not_elem_of_nil in Hin.
  - intros q Hq. apply list_elem_of_In, list_elem_of_omap in Hq as (y & Hy & Hq).
    apply list_elem_of_In, filter_In in Hy as [_ Hy].
    destruct (counts_for_median_num y Hy) as (q' & Hq' & Hb). congruence.
Qed.

Lemma standard_age_plausible m x :
  plausible_age m -> plausible_age (Correction.standard_age m x).
Proof.
  intros Hm. unfold Correction.standard_age.
  destruct (_ || _ || _ || _) eqn:Hx; [done|]. by eapply standard_age_kept.
Qed.

End Canonical.

(** ** De-duplication keeps one row of each group *)

Lemma keep_first_represents cols seen rs r :
  In r rs ->
  (exists r0, In r0 (keep_first cols seen rs) /\ same_row cols r r0 = true)
  \/ existsb (same_row cols r) seen = true.
Proof.
  revert seen. induction rs as [|r1 rs IH]; intros seen; simpl; [done|].
  intros [->|Hin].
  - destruct (existsb (same_row cols r) seen) eqn:Hseen; [by right|].
    left. exists r. split; [by left | apply same_row_refl].
  - destruct (existsb (same_row cols r1) seen) eqn:Hseen.
    + by apply IH.
    + destruct (IH (r1 :: seen) Hin) as [(r0 & Hr0 & Hsame)|Hex].
      * left. exists r0. split; [by right | done].
      * simpl in Hex. apply orb_true_iff in Hex as [Hsame|Hex]; [|by right].
        left. exists r1. split; [by left | done].
Qed.

Lemma same_row_cell cols r1 r2 col :
  same_row cols r1 r2 = true -> has_column col (Frame cols []) = true ->
  same_cell (cell col r1) (cell col r2) = true.
Proof.
  unfold same_row, has_column; simpl. rewrite forallb_forall, mem_In. auto.
Qed.

(** ** The median the age step uses *)

Section Age.
Context `{External}.

Lemma column_step_other col col' f d :
  col <> col' -> column col' (step col f d) = column col' d.
Proof.
  intros Hne. unfold column. rewrite rows_step, map_map.
  apply map_ext. intros r. by apply cell_update_other.
Qed.

Lemma median_used_column df :
  median_used df =
  float_or_nan
    (median (omap py_num (List.filter Correction.counts_for_median
                                      (column "age" (deduplicated df))))).
Proof.
  unfold median_used, Correction.median_age. by rewrite column_step_other.
Qed.

Lemma cell_age_before df r : cell "age" (before_dedup df r) = cell "age" r.
Proof. by cells. Qed.

(** An age that counts for the median survives the de-duplication. *)
Lemma counting_age_survives df :
  has_column "age" df = true ->
  (exists x, In x (column "age" df) /\ Correction.counts_for_median x = true) ->
  exists x, In x (column "age" (deduplicated df))
            /\ Correction.counts_for_median x = true.
Proof.
  intros Hage (x & Hx & Hc). unfold column in Hx.
  apply in_map_iff in Hx. destruct Hx as (r & <- & Hr).
  destruct (keep_first_represents (columns df) [] (map (before_dedup df) (rows df))
              (before_dedup df r)) as [(r0 & Hr0 & Hsame)|Hex].
  - apply in_map_iff. eauto.
  - exists (cell "age" r0). split.
    + unfold column. rewrite rows_deduplicated. apply in_map_iff. eauto.
    + apply (counts_for_median_same (cell "age" (before_dedup df r))).
      * by apply (same_row_cell (columns df)).
      * by rewrite cell_age_before.
  - done.
Qed.

Lemma median_used_plausible df :
  has_column "age" df = true ->
  (exists x, In x (column "age" df) /\ Correction.counts_for_median x = true) ->
  plausible_age (median_used df).
Proof.
  intros Hage Hex. rewrite median_used_column.
  destruct (median_of_counting _ (counting_age_survives df Hage Hex))
    as (m & -> & Hlo & Hhi).
  exists m. split; [done|]. split; [done|]. by apply Qlt_le_weak.
Qed.

End Age.
(** ** The orchestrator *)

Section Orchestrator.
Context `{External}.

Lemma run_rules_nonempty df : nonempty (fst (Detection.run_rules df)) = true.
Proof.
  unfold Detection.run_rules. simpl fold_left.
  assert (Hcheck : forall col mask tag what acc,
             nonempty (fst acc) = true ->
             nonempty (fst (Detection.check df col mask tag what acc)) = true).
  { intros col mask tag what [issues logs] Hacc. unfold Detection.check.
    destruct (has_column col df); [|done]. simpl. by destruct issues. }
  unfold Detection.check_name. do 3 apply Hcheck.
  unfold Detection.check_duplicates. simpl.
  by destruct (fst _).
Qed.

(** Detection raises only on a table without rows. *)
Lemma raises_no_rows df : Detection.raises df = true -> rows df = [].
Proof.
  unfold Detection.raises, Detection.selection_raises.
  destruct (rows df); [done|]. cbn [nonempty negb]. by rewrite !andb_false_r.
Qed.

Lemma detect_issues_raises df :
  Detection.detect_issues df = None <-> Detection.raises df = true.
Proof.
  unfold Detection.detect_issues. destruct (Detection.raises df); [done|].
  destruct (Detection.run_rules df) as [issues logs].
  destruct (nonempty issues); [done|]. by destruct (has_column "issues" df).
Qed.

(** The table detection returns, when it returns. *)
Lemma detect_issues_frame df out logs :
  Detection.detect_issues df = Some (out, logs) ->
  out = assign "issues" (Detection.combine_issues (fst (Detection.run_rules df))) df.
Proof.
  unfold Detection.detect_issues. destruct (Detection.raises df); [done|].
  pose proof (run_rules_nonempty df) as Hne.
  destruct (Detection.run_rules df) as [issues logs']. cbn [fst] in *.
  rewrite Hne. by intros [= <- _].
Qed.

Lemma detect_issues_rows df :
  rows df <> [] -> exists out logs, Detection.detect_issues df = Some (out, logs).
Proof.
  intros Hrows. destruct (Detection.detect_issues df) as [[out logs]|] eqn:Hd; [eauto|].
  apply detect_issues_raises, raises_no_rows in Hd. done.
Qed.

Lemma mem_app_r x xs : Py.mem x (xs ++ [x]) = true.
Proof. apply mem_In, in_app_iff. right. by left. Qed.

Lemma has_column_assign col series df : has_column col (assign col series df) = true.
Proof.
  unfold has_column at 1, assign; simpl.
  destruct (has_column col df) eqn:Hc; [done | apply mem_app_r].
Qed.

(** Detection always returns a table with an Issues Column, and with as
    many rows as it got. *)
Lemma detect_issues_has_issues df out logs :
  Detection.detect_issues df = Some (out, logs) -> has_column "issues" out = true.
Proof. intros ->%detect_issues_frame. apply has_column_assign. Qed.

Lemma detect_issues_no_rows df out logs :
  Detection.detect_issues df = Some (out, logs) -> rows out = [] -> rows df = [].
Proof.
  intros ->%detect_issues_frame. unfold assign. cbn [rows].
  by destruct (rows df).
Qed.

(** Correction never returns a table with an Issues Column. *)
Lemma correct_issues_drops_issues df :
  has_column "issues" (fst (Correction.correct_issues df)) = false.
Proof.
  rewrite correct_issues_frame. unfold has_column; simpl.
  apply not_true_iff_false. rewrite mem_In, filter_In.
  intros [_ Hne]. by rewrite String.eqb_refl in Hne.
Qed.

Lemma needs_correction_false d :
  has_column "issues" d = true -> Cli.needs_correction d = false ->
  forall r, In r (rows d) -> Py.strip (str (cell "issues" r)) = "".
Proof.
  unfold Cli.needs_correction. intros -> Hex r Hr.
  apply not_true_iff_false in Hex. rewrite existsb_exists in Hex.
  destruct (String.eqb_spec (Py.strip (str (cell "issues" r))) "") as [|Hne]; [done|].
  exfalso. apply Hex. exists r. split; [done|]. unfold Cli.nonblank.
  apply negb_true_iff. by apply String.eqb_neq.
Qed.

(** Correction is only called on a table with a row, where it does not
    raise. *)
Lemma needs_correction_rows d : Cli.needs_correction d = true -> rows d <> [].
Proof.
  unfold Cli.needs_correction. destruct (has_column "issues" d); [|done].
  by destruct (rows d).
Qed.

Lemma correct_issues_called d :
  Cli.needs_correction d = true ->
  Cli.correct_issues d = Some (Correction.correct_issues d).
Proof.
  intros Hrows%needs_correction_rows. unfold Cli.correct_issues, Correction.raises.
  destruct (rows d); [done|]. cbn [nonempty negb]. by rewrite andb_false_r.
Qed.

Lemma call_done a f st d entries :
  f (Cli.df st) = Some (d, entries) ->
  Cli.call a f st
  = Cli.Done (Cli.State d (Cli.log st ++ map (Cli.FromAgent a) entries)
                        (Cli.calls st ++ [a])).
Proof. intros Hf. unfold Cli.call. by rewrite Hf. Qed.

Lemma call_raised a f st :
  f (Cli.df st) = None ->
  Cli.call a f st
  = Cli.Raised (Cli.State (Cli.df st) (Cli.log st ++ [Cli.PipelineFailed])
                          (Cli.calls st ++ [a])).
Proof. intros Hf. unfold Cli.call. by rewrite Hf. Qed.

(** *** Counting the iterations and the detection passes *)

Lemma filter_entries a entries :
  List.filter (fun m => match m with Cli.PipelineIteration _ => true | _ => false end)
              (map (Cli.FromAgent a) entries) = [].
Proof. induction entries as [|e es IH]; [done | exact IH]. Qed.

Lemma iterations_say m st :
  Cli.iterations (Cli.say m st)
  = (Cli.iterations st
     + match m with Cli.PipelineIteration _ => 1 | _ => 0 end)%nat.
Proof.
  unfold Cli.iterations. cbn [Cli.say Cli.log].
  rewrite List.filter_app, List.length_app. by destruct m.
Qed.

Ltac count_iterations :=
  unfold Cli.iterations in *; cbn [Cli.log Cli.say] in *;
  rewrite ?List.filter_app, ?List.length_app, ?filter_entries;
  cbn [List.filter length]; lia.

Lemma df_fold_say {A : Type} (f : A -> Cli.message) (l : list A) st :
  Cli.df (fold_left (fun st x => Cli.say (f x) st) l st) = Cli.df st.
Proof. revert st. induction l as [|x l IH]; intros st; simpl; [done|]. by rewrite IH. Qed.

Lemma calls_fold_say {A : Type} (f : A -> Cli.message) (l : list A) st :
  Cli.calls (fold_left (fun st x => Cli.say (f x) st) l st) = Cli.calls st.
Proof. revert st. induction l as [|x l IH]; intros st; simpl; [done|]. by rewrite IH. Qed.

Lemma iterations_fold_rows (l : list row) st :
  Cli.iterations
    (fold_left (fun st r => Cli.say (Cli.UnresolvedRow (label r) (cell "issues" r)) st)
               l st)
  = Cli.iterations st.
Proof.
  revert st. induction l as [|x l IH]; intros st; cbn [fold_left]; [done|].
  rewrite IH, iterations_say. lia.
Qed.

(** *** The re-check *)

(** The re-check is one detection pass.  It raises on a table without
    rows; otherwise it returns the table of that pass, which has an Issues
    Column. *)
Lemma final_check_spec iteration st :
  match Cli.final_check iteration st with
  | Cli.Done st' =>
      Cli.calls st' = Cli.calls st ++ [Cli.DetectionAgent]
      /\ Cli.iterations st' = Cli.iterations st
      /\ has_column "issues" (Cli.df st') = true
  | Cli.Raised st' =>
      Cli.calls st' = Cli.calls st ++ [Cli.DetectionAgent]
      /\ Cli.iterations st' = Cli.iterations st
      /\ rows (Cli.df st') = []
  end.
Proof.
  unfold Cli.final_check.
  destruct (Cli.detect_issues (Cli.df st)) as [[d logs]|] eqn:Hd.
  - rewrite (call_done _ _ _ _ _ Hd). cbn [Cli.df]. unfold Cli.detect_issues in Hd.
    unfold Cli.issues_accessor_raises.
    destruct (rows d) as [|r rs] eqn:Hrows; cbn [nonempty negb].
    + cbn [Cli.say Cli.calls Cli.df]. split; [done|]. split; [|done].
      count_iterations.
    + destruct (negb _).
      * cbn [Cli.say Cli.calls Cli.df]. split; [done|]. split.
        -- count_iterations.
        -- by eapply detect_issues_has_issues.
      * rewrite calls_fold_say, df_fold_say, iterations_fold_rows.
        cbn [Cli.say Cli.calls Cli.df]. split; [done|]. split.
        -- count_iterations.
        -- by eapply detect_issues_has_issues.
  - rewrite (call_raised _ _ _ Hd). unfold Cli.detect_issues in Hd.
    cbn [Cli.calls Cli.df]. split; [done|]. split.
    + count_iterations.
    + by apply raises_no_rows, detect_issues_raises.
Qed.

Lemma loop_unfold service fuel iteration st :
  Cli.loop (S fuel) service iteration st =
  if (iteration <? Cli.max_iterations)%nat then
    let iteration := (iteration + 1)%nat in
    let st := Cli.say (Cli.PipelineIteration iteration) st in
    Cli.and_then (Cli.call Cli.DetectionAgent Cli.detect_issues st) (fun st =>
    if Cli.needs_correction (Cli.df st) then
      let st := Cli.say Cli.CorrectionNeeded st in
      Cli.and_then (Cli.call Cli.CorrectionAgent Cli.correct_issues st) (fun st =>
      if Cli.needs_enrichment (Cli.df st) then
        let st := Cli.say Cli.EnrichmentNeeded st in
        Cli.and_then
          (Cli.call Cli.EnrichmentAgent (Cli.enrich_data (service iteration)) st)
          (fun st =>
        let st := Cli.say Cli.ForwardingForRecheck st in
        Cli.and_then (if (iteration =? Cli.max_iterations)%nat
                      then Cli.final_check iteration st else Cli.Done st) (fun st =>
        Cli.loop fuel service iteration st))
      else Some (Cli.Finished Cli.CorrectionSufficed (Cli.say Cli.NoEnrichmentNeeded st)))
    else Some (Cli.Finished Cli.NoIssuesLeft (Cli.say Cli.NoCorrectionNeeded st)))
  else Some (Cli.Finished Cli.IterationsUsedUp st).
Proof. reflexivity. Qed.

(** *** The runs of the loop *)

(** The loop ends within the fuel [main] gives it.  It ends by one of its
    three exits or by an exception; the calls made are full iterations
    followed by the last calls; and a run that leaves the loop does so in a
    state that meets the condition of its exit. *)
Lemma loop_runs service fuel iteration st :
  (iteration <= Cli.max_iterations)%nat ->
  (Cli.max_iterations - iteration < fuel)%nat ->
  Cli.calls st = cycles iteration
                 ++ (if (iteration =? Cli.max_iterations)%nat
                     then [Cli.DetectionAgent] else []) ->
  Cli.iterations st = iteration ->
  (iteration = Cli.max_iterations -> has_column "issues" (Cli.df st) = true) ->
  exists o k,
    Cli.loop fuel service iteration st = Some o
    /\ run_trace o k
    /\ forall e st', o = Cli.Finished e st' ->
         exit_condition e st'
         /\ has_column "issues" (Cli.df st') = issues_column_written e.
Proof.
  revert iteration st.
  induction fuel as [|fuel IH]; intros iteration st Hle Hfuel Hcalls Hiter Hissues; [lia|].
  rewrite loop_unfold.
  destruct (Nat.ltb_spec iteration Cli.max_iterations) as [Hlt|Hge]; cbv zeta.
  - destruct (Nat.eqb_spec iteration Cli.max_iterations) as [|_]; [lia|].
    rewrite app_nil_r in Hcalls.
    assert (Hmin : Nat.min (S iteration) Cli.max_iterations = S iteration) by lia.
    destruct (Cli.detect_issues (Cli.df st)) as [[d1 logs1]|] eqn:Hdet.
    + rewrite (call_done _ Cli.detect_issues
                 (Cli.say (Cli.PipelineIteration (iteration + 1)) st) _ _ Hdet).
      unfold Cli.detect_issues in Hdet.
      cbn [Cli.and_then Cli.df Cli.log Cli.calls Cli.say].
      assert (Hhas1 : has_column "issues" d1 = true)
        by (by eapply detect_issues_has_issues).
      destruct (Cli.needs_correction d1) eqn:Hcorr.
      * pose proof (correct_issues_called d1 Hcorr) as Hcall2.
        pose proof (correct_issues_drops_issues d1) as Hdrop.
        destruct (Correction.correct_issues d1) as [d2 logs2]. cbn [fst] in Hdrop.
        match goal with
        | |- context [Cli.call Cli.CorrectionAgent Cli.correct_issues ?s] =>
            rewrite (call_done Cli.CorrectionAgent Cli.correct_issues s d2 logs2 Hcall2)
        end.
        cbn [Cli.and_then Cli.df Cli.log Cli.calls].
        destruct (Cli.needs_enrichment d2) eqn:Henr.
        -- destruct (Enrichment.enrich_data (service (iteration + 1)%nat) d2)
             as [d3 logs3] eqn:Henrich.
           match goal with
           | |- context [Cli.call Cli.EnrichmentAgent ?f ?s] =>
               rewrite (call_done Cli.EnrichmentAgent f s d3 logs3 (f_equal Some Henrich))
           end.
           cbn [Cli.and_then Cli.df Cli.log Cli.calls Cli.say].
           set (st4 := Cli.say Cli.ForwardingForRecheck _).
           assert (Hc4 : Cli.calls st4 = cycles (iteration + 1)).
           { unfold st4. cbn [Cli.calls Cli.say]. rewrite Hcalls, Nat.add_1_r.
             cbn [cycles]. by rewrite <- !app_assoc. }
           assert (Hi4 : Cli.iterations st4 = (iteration + 1)%nat).
           { unfold st4. count_iterations. }
           clearbody st4.
           destruct (Nat.eqb_spec (iteration + 1) Cli.max_iterations) as [Heq|Hne].
           ++ pose proof (final_check_spec (iteration + 1) st4) as Hfinal.
              destruct (Cli.final_check (iteration + 1) st4) as [st5|st5];
                destruct Hfinal as (Hc5 & Hi5 & Hd5); cbn [Cli.and_then].
              ** apply IH; [lia | lia | | lia | done].
                 rewrite Hc5, Hc4.
                 by destruct (Nat.eqb_spec (iteration + 1) Cli.max_iterations).
              ** exists (Cli.Failed st5), (iteration + 1)%nat.
                 split; [done|]. split; [|done].
                 unfold run_trace. cbn [Cli.state_of last_calls].
                 split; [lia|]. split; [by rewrite Hc5, Hc4|].
                 split; [lia | done].
           ++ cbn [Cli.and_then]. apply IH; [lia | lia | | lia | lia].
              rewrite Hc4.
              destruct (Nat.eqb_spec (iteration + 1) Cli.max_iterations); [lia|].
              by rewrite app_nil_r.
        -- eexists _, iteration. split; [reflexivity|]. split.
           ++ unfold run_trace. cbn [Cli.state_of last_calls Cli.say Cli.calls].
              split; [lia|]. split; [by rewrite Hcalls, <- app_assoc|].
              split; [|done]. rewrite Hmin. count_iterations.
           ++ intros e st' [= <- <-]. cbn [exit_condition issues_column_written
                                           Cli.say Cli.df].
              by split.
      * eexists _, iteration. split; [reflexivity|]. split.
        -- unfold run_trace. cbn [Cli.state_of last_calls Cli.say Cli.calls].
           split; [lia|]. split; [by rewrite Hcalls|]. split; [|done]. rewrite Hmin.
           count_iterations.
        -- intros e st' [= <- <-]. cbn [exit_condition issues_column_written
                                        Cli.say Cli.df].
           split; [|done]. split; [done|]. by apply needs_correction_false.
    + rewrite (call_raised _ Cli.detect_issues
                 (Cli.say (Cli.PipelineIteration (iteration + 1)) st) Hdet).
      unfold Cli.detect_issues in Hdet.
      cbn [Cli.and_then Cli.df Cli.log Cli.calls Cli.say].
      eexists _, iteration. split; [reflexivity|]. split; [|done].
      unfold run_trace. cbn [Cli.state_of last_calls Cli.calls Cli.df].
      split; [lia|]. split; [by rewrite Hcalls|]. split.
      * rewrite Hmin. count_iterations.
      * by apply raises_no_rows, detect_issues_raises.
  - assert (Heq : iteration = Cli.max_iterations) by lia.
    eexists _, iteration. split; [reflexivity|]. split.
    + unfold run_trace. cbn [Cli.state_of last_calls].
      split; [lia|]. split.
      * rewrite Hcalls. by destruct (Nat.eqb_spec iteration Cli.max_iterations).
      * split; [|done]. rewrite Hiter, Heq. reflexivity.
    + intros e st' [= <- <-]. cbn [exit_condition issues_column_written].
      split; [done | by apply Hissues].
Qed.

Lemma main_runs service input :
  exists o k,
    Cli.main service input = Some o
    /\ run_trace o k
    /\ forall e st', o = Cli.Finished e st' ->
         exit_condition e st'
         /\ has_column "issues" (Cli.df st') = issues_column_written e.
Proof.
  apply loop_runs.
  - unfold Cli.max_iterations. lia.
  - unfold Cli.max_iterations. lia.
  - reflexivity.
  - reflexivity.
  - unfold Cli.max_iterations. discriminate.
Qed.

(** The detection passes of a run: one for each full iteration, and the
    last one. *)
Lemma passes_cycles k tail :
  length (List.filter (fun a => match a with Cli.DetectionAgent => true | _ => false end)
                      (cycles k ++ tail))
  = (k + length (List.filter
                   (fun a => match a with Cli.DetectionAgent => true | _ => false end)
                   tail))%nat.
Proof.
  revert tail. induction k as [|k IH]; intros tail; [done|].
  cbn [cycles]. rewrite <- !app_assoc, IH. cbn. lia.
Qed.

Lemma passes_run o k : run_trace o k -> Cli.detection_passes (Cli.state_of o) = S k.
Proof.
  intros (_ & Hcalls & _). unfold Cli.detection_passes. rewrite Hcalls, passes_cycles.
  destruct o as [[| |] st|st]; cbn; lia.
Qed.

End Orchestrator.

(** ** Enrichment *)

Section Enrich.
Context `{External}.

Lemma filled_logs_empty_table df cols :
  Enrichment.filled_logs df (Frame cols []) = [].
Proof.
  unfold Enrichment.filled_logs. induction (columns df) as [|c cs IH]; simpl; [done|].
  rewrite IH. destruct (has_column c (Frame cols [])); [|done].
  unfold column; simpl. by rewrite combine_nil.
Qed.

(** When a step of the parse raises, the table is kept, up to the clearing
    of the Issues Column, and the log is the one parse-error entry. *)
Lemma enrich_data_parse_error reply df :
  Enrichment.parse_response
    (Py.strip (Re.remove_code_fence (Enrichment.gemini_generate reply))) = None ->
  Enrichment.enrich_data reply df = (Enrichment.clear_issues df, [ParseError]).
Proof. intros Hp. unfold Enrichment.enrich_data. by rewrite Hp. Qed.

Lemma parse_unknown :
  csv_field_count "Unknown" = Some 1%nat ->
  Enrichment.parse_response "Unknown" = read_csv "Unknown".
Proof.
  intros Hcount. unfold Enrichment.parse_response.
  change (Py.splitlines "Unknown") with ["Unknown"]. cbv beta iota.
  rewrite Hcount. cbn [Enrichment.filter_lines]. rewrite Hcount.
  reflexivity.
Qed.

End Enrich.

(** ** Running the correction steps on their own output *)

Section Idempotent.
Context `{External}.














(** The age rule on its own output: with the median recomputed from the
    corrected ages, no age changes. *)
Lemma counts_for_median_kept x :
  Correction.counts_for_median x = true ->
  (isnull x || negb (is_int_or_float x) || num_le x 0 || num_gt x 120) = false.
Proof.
  intros Hc. destruct (counts_for_median_num x Hc) as (q & Hq & Hlo & Hhi).
  unfold num_le, num_gt. rewrite Hq.
  assert (Hle : Qle_bool q 0 = false) by (by apply Qle_bool_gt).
  assert (Hgt : Qltb 120 q = false) by (apply Qltb_ge; by apply Qlt_le_weak).
  rewrite Hle, Hgt. by destruct x.
Qed.



Lemma filter_none {A : Type} (f : A -> bool) (l : list A) :
  (forall x, In x l -> f x = false) -> List.filter f l = [].
Proof.
  induction l as [|x l IH]; intros Hall; simpl; [done|].
  rewrite (Hall x) by (by left). apply IH. intros y Hy. apply Hall. by right.
Qed.


End Idempotent.

(** ** Correcting a corrected table *)




Lemma keep_first_no_duplicates cols seen rs :
  (forall r, In r rs -> existsb (same_row cols r) seen = false) ->
  (forall r, In r rs -> (length (List.filter (same_row cols r) rs) < 2)%nat) ->
  keep_first cols seen rs = rs.
Proof.
  revert seen. induction rs as [|r0 rs IH]; intros seen Hseen Hcount; [done|].
  cbn [keep_first]. rewrite (Hseen r0) by (by left). f_equal. apply IH.
  - intros r Hr. cbn [existsb]. rewrite (Hseen r) by (by right).
    rewrite orb_false_r. destruct (same_row cols r r0) eqn:Hsame; [|done].
    exfalso. pose proof (Hcount r (or_intror Hr)) as Hlt.
    cbn [List.filter] in Hlt. rewrite Hsame in Hlt. cbn [length] in Hlt.
    assert (Hin : In r (List.filter (same_row cols r) rs)).
    { apply filter_In. split; [done | apply same_row_refl]. }
    destruct (List.filter (same_row cols r) rs); [done | simpl in Hlt; lia].
  - intros r Hr. pose proof (Hcount r (or_intror Hr)) as Hlt.
    cbn [List.filter] in Hlt. destruct (same_row cols r r0); [|done].
    cbn [length] in Hlt. lia.
Qed.


Section Twice.
Context `{External}.


Lemma has_column_corrected col df :
  col <> "issues" ->
  has_column col (fst (Correction.correct_issues df)) = has_column col df.
Proof.
  intros Hne. rewrite correct_issues_frame. unfold has_column; cbn [columns].
  apply eq_true_iff_eq. rewrite !mem_In, filter_In.
  split; [tauto|]. intros Hin. split; [done|].
  apply negb_true_iff. by apply String.eqb_neq.
Qed.

Lemma rows_corrected df :
  rows (fst (Correction.correct_issues df))
  = map (after_dedup df) (rows (deduplicated df)).
Proof. by rewrite correct_issues_frame. Qed.

Lemma deduplicated_row_inv df r0 :
  In r0 (rows (deduplicated df)) ->
  exists r, In r (rows df) /\ r0 = before_dedup df r.
Proof.
  rewrite rows_deduplicated. intros Hin.
  apply In_keep_first, in_map_iff in Hin. destruct Hin as (r & <- & Hr). eauto.
Qed.





End Twice.

(** * The claims of the specification *)

(** ** C10 *)

(** C10: the correction stage adds no column and removes only the Issues
    Column, and every column it does not rewrite keeps its cells: the
    columns of the result are those of the input without [issues], and the
    rows of the result are a selection [keep] of the rows of the input
    (those that survive the de-duplication) with the same index labels and,
    at every column other than the ten corrected columns and [issues], the
    same cells. *)
Theorem correction_frame_effect `{External} (df : DataFrame) :
  let once := fst (Correction.correct_issues df) in
  columns once = List.filter (fun c => negb (String.eqb c "issues")) (columns df)
  /\ exists keep : list bool,
       length keep = length (rows df)
       /\ map label (rows once) = select keep (map label (rows df))
       /\ forall col, ~ In col corrected_columns ->
            map (fun r => cells r !! col) (rows once)
            = select keep (map (fun r => cells r !! col) (rows df)).
Proof.
  cbv zeta. rewrite correct_issues_frame. cbn [columns rows]. split; [done|].
  rewrite rows_deduplicated.
  exists (keep_mask (columns df) [] (map (before_dedup df) (rows df))).
  split; [by rewrite length_keep_mask, length_map|].
  rewrite keep_first_select. split.
  - rewrite map_map, !map_select, map_map. f_equal.
    apply map_ext. intros r. by cells.
  - intros col Hcol. rewrite map_map, !map_select, map_map. f_equal.
    apply map_ext. intros r.
    unfold corrected_columns in Hcol. simpl in Hcol.
    unfold after_dedup, before_dedup.
    rewrite lookup_forget_other by tauto.
    by rewrite !lookup_update_other by tauto.
Qed.

(** ** C9 *)

(** C9: when the table has a phone column, every phone cell of the table
    the correction stage returns matches the detection pattern
    [^\d{3,4}-\d{4}$], so the detection rules run on that table give no row
    the tag [Invalid Phone]. *)
Theorem corrected_phone_passes_detection `{External} (df : DataFrame) (r : row) :
  has_column "phone" df = true ->
  In r (rows (fst (Correction.correct_issues df))) ->
  Re.matches Detection.PHONE_REGEX (str (cell "phone" r)) = true
  /\ Detection.invalid_phone_mask r = false
  /\ ~ In "Invalid Phone"
         (Detection.row_tags
            (fst (Detection.run_rules (fst (Correction.correct_issues df)))) r).
Proof.
  intros Hphone Hr. destruct (corrected_row_inv df r Hr) as (r0 & _ & ->).
  assert (Hm : Re.matches Detection.PHONE_REGEX
                 (str (cell "phone" (after_dedup df (before_dedup df r0)))) = true).
  { rewrite cell_phone, Hphone. apply standard_phone_matches. }
  assert (Hmask : Detection.invalid_phone_mask (after_dedup df (before_dedup df r0)) = false).
  { unfold Detection.invalid_phone_mask. by rewrite Hm. }
  split; [done|]. split; [done|]. by apply no_invalid_phone_tag.
Qed.

(** ** C6 *)

(** C6, as amended: when the table has a phone column, the phone cells of
    the result are, in order and record by record, the phone rule applied
    to the phone cells of the records of the input that survive the
    de-duplication ([keep] marks their positions, and the index labels of
    the result are the labels at those positions); and the phone rule pads
    the digits of a cell with fewer than eight digits on the left with
    zeros to eight digits and writes them as the first four, a hyphen and
    the last four (so [12-34] becomes [0000-1234]). *)
Theorem short_phone_is_padded `{External} (df : DataFrame) :
  has_column "phone" df = true ->
  let once := fst (Correction.correct_issues df) in
  (exists keep : list bool,
     length keep = length (rows df)
     /\ map label (rows once) = select keep (map label (rows df))
     /\ column "phone" once
        = select keep (map Correction.standard_phone (column "phone" df)))
  /\ forall x : value,
       let digits := Py.only_digits (str x) in
       let padded := Py.replicate_char (8 - String.length digits) "0" +:+ digits in
       (String.length digits < 8)%nat ->
       Correction.standard_phone x
       = VStr (Py.take 4 padded +:+ "-" +:+ Py.drop 4 padded).
Proof.
  intros Hphone once. split.
  - unfold once, column. rewrite correct_issues_frame. cbn [rows].
    rewrite rows_deduplicated.
    exists (keep_mask (columns df) [] (map (before_dedup df) (rows df))).
    split; [by rewrite length_keep_mask, length_map|].
    rewrite keep_first_select. split.
    + rewrite map_map, !map_select, map_map. f_equal.
      apply map_ext. intros r. by cells.
    + rewrite map_map, !map_select, !map_map. f_equal.
      apply map_ext. intros r. by rewrite cell_phone, Hphone.
  - intros x digits padded Hlen. by apply standard_phone_short.
Qed.

(** ** C7 *)

(** C7, as amended: in the table the correction stage returns, for every
    record and each of these columns that the table has, country and city
    are [Unknown] or a member of their vocabulary, gender and marital
    status are members of theirs, loyalty points is a number that is at
    least 0, and, provided some record of the input has a numeric age
    strictly between 0 and 120, age is a number in (0, 120]. *)
Theorem corrected_values_canonical `{External} (df : DataFrame) (r : row) :
  In r (rows (fst (Correction.correct_issues df))) ->
  (has_column "country" df = true ->
   canonical Correction.CANONICAL_COUNTRIES (cell "country" r))
  /\ (has_column "city" df = true ->
      canonical Correction.CANONICAL_CITIES (cell "city" r))
  /\ (has_column "gender" df = true ->
      Detection.isin Correction.GENDERS (cell "gender" r) = true)
  /\ (has_column "marital_status" df = true ->
      Detection.isin Correction.MARITAL_STATUSES (cell "marital_status" r) = true)
  /\ (has_column "loyalty_points" df = true ->
      non_negative (cell "loyalty_points" r))
  /\ (has_column "age" df = true ->
      (exists x, In x (column "age" df) /\ Correction.counts_for_median x = true) ->
      plausible_age (cell "age" r)).
Proof.
  intros Hr. destruct (corrected_row_inv df r Hr) as (r0 & _ & ->).
  repeat split.
  - intros Hc. rewrite cell_country, Hc. apply fuzzy_match_canonical.
  - intros Hc. rewrite cell_city, Hc. apply fuzzy_match_canonical.
  - intros Hc. rewrite cell_gender, Hc. apply standard_gender_isin.
  - intros Hc. rewrite cell_marital, Hc. apply standard_marital_isin.
  - intros Hc. rewrite cell_loyalty, Hc. apply standard_loyalty_non_negative.
  - intros Hc Hex. rewrite cell_age, Hc.
    by apply standard_age_plausible, median_used_plausible.
Qed.

(** ** C2 *)

(** C2, as amended: whatever the input table and the replies of the text
    service, a run of the orchestrator ends, by leaving the loop or by an
    exception that [main] reports with exit code 1.  Its calls are [k], at
    most 3, full iterations, each a detection, a correction and an
    enrichment, followed by a last detection (and by a correction when
    correction sufficed).  It has entered [min (k + 1) 3] iterations, at
    most 3, and made [k + 1] detection passes, at most 4: one at the start
    of each iteration, and a fourth one only as the re-check that follows
    the enrichment of the third iteration. *)
Theorem at_most_four_detection_passes `{External}
        (service : nat -> option string) (input : DataFrame) :
  exists o k,
    Cli.main service input = Some o
    /\ (k <= 3)%nat
    /\ Cli.calls (Cli.state_of o) = cycles k ++ last_calls o
    /\ Cli.iterations (Cli.state_of o) = Nat.min (S k) 3
    /\ Cli.detection_passes (Cli.state_of o) = S k
    /\ (Cli.iterations (Cli.state_of o) <= 3)%nat
    /\ (Cli.detection_passes (Cli.state_of o) <= 4)%nat.
Proof.
  destruct (main_runs service input) as (o & k & Hmain & Htrace & _).
  pose proof (passes_run o k Htrace) as Hpasses.
  destruct Htrace as (Hk & Hcalls & Hiter & _).
  unfold Cli.max_iterations in *.
  exists o, k. repeat split; try done; lia.
Qed.

(** ** C3 *)

(** C3, as amended: when a run leaves the loop because correction alone
    sufficed, the table written as output has no Issues Column; when it
    leaves the loop because detection found no record with an issue, the
    table written as output has an Issues Column, and each of its cells is
    blank. *)
Theorem issues_column_at_exit `{External}
        (service : nat -> option string) (input : DataFrame)
        (e : Cli.exit) (st : Cli.state) :
  Cli.main service input = Some (Cli.Finished e st) ->
  match e with
  | Cli.CorrectionSufficed => has_column "issues" (Cli.df st) = false
  | Cli.NoIssuesLeft =>
      has_column "issues" (Cli.df st) = true
      /\ forall r, In r (rows (Cli.df st)) ->
                   Py.strip (str (cell "issues" r)) = ""
  | Cli.IterationsUsedUp => True
  end.
Proof.
  intros Hrun. destruct (main_runs service input) as (o & k & Hmain & _ & Hexit).
  rewrite Hmain in Hrun. injection Hrun as ->.
  destruct (Hexit e st eq_refl) as [Hcond _]. destruct e; exact Hcond.
Qed.

(** Witness of C9 on a table with one four-digit phone number. *)
Lemma corrected_phone_passes_detection_witness :
  has_column "phone" Examples.short_phone = true
  /\ In Examples.short_phone_corrected
        (rows (fst (Correction.correct_issues (H := Reference.external)
                      Examples.short_phone)))
  /\ Re.matches Detection.PHONE_REGEX
       (str (H := Reference.external)
            (cell "phone" Examples.short_phone_corrected)) = true.
Proof.
  assert (Hcol : has_column "phone" Examples.short_phone = true) by reflexivity.
  assert (Hin : In Examples.short_phone_corrected
                   (rows (fst (Correction.correct_issues (H := Reference.external)
                                 Examples.short_phone)))).
  { vm_compute. left. reflexivity. }
  split; [exact Hcol|]. split; [exact Hin|].
  exact (proj1 (corrected_phone_passes_detection (H := Reference.external)
                  Examples.short_phone Examples.short_phone_corrected Hcol Hin)).
Defined.

(** Counterexample to C6 as stated: the phone [12-34] has four digits, and
    the correction stage makes it [0000-1234], not the sentinel. *)
Lemma short_phone_is_not_the_sentinel :
  Py.only_digits "12-34" = "1234"
  /\ column "phone" (fst (Correction.correct_issues (H := Reference.external)
                            Examples.short_phone))
     = [VStr "0000-1234"]
  /\ VStr "0000-1234" <> VStr "0000-0000".
Proof. split; [reflexivity|]. split; [vm_compute; reflexivity | discriminate]. Qed.

(** Witness of C6 as amended, on the same table. *)
Lemma short_phone_is_padded_witness :
  has_column "phone" Examples.short_phone = true
  /\ column "phone" (fst (Correction.correct_issues (H := Reference.external)
                            Examples.short_phone))
     = [Correction.standard_phone (H := Reference.external) (VStr "12-34")]
  /\ Correction.standard_phone (H := Reference.external) (VStr "12-34")
     = VStr "0000-1234".
Proof.
  assert (Hcol : has_column "phone" Examples.short_phone = true) by reflexivity.
  destruct (short_phone_is_padded (H := Reference.external)
              Examples.short_phone Hcol) as [_ Hshort].
  split; [exact Hcol|]. split; [vm_compute; reflexivity|].
  apply (Hshort (VStr "12-34")). vm_compute. lia.
Defined.

(** Counterexample to C7 as stated: the only age of the table is negative,
    no age counts for the median, and the corrected age is the missing
    value, which is no number in (0, 120]. *)
Lemma negative_age_becomes_missing :
  has_column "age" Examples.negative_age = true
  /\ column "age" (fst (Correction.correct_issues (H := Reference.external)
                          Examples.negative_age))
     = [VNaN]
  /\ ~ plausible_age VNaN.
Proof.
  split; [reflexivity|]. split; [vm_compute; reflexivity|].
  intros (q & Hq & _). discriminate.
Qed.

(** Witness of C7 as amended, on a record with a cell in each column. *)
Lemma corrected_values_canonical_witness :
  In Examples.customer_corrected
     (rows (fst (Correction.correct_issues (H := Reference.external)
                   Examples.customer)))
  /\ canonical Correction.CANONICAL_COUNTRIES
       (cell "country" Examples.customer_corrected)
  /\ plausible_age (cell "age" Examples.customer_corrected).
Proof.
  assert (Hin : In Examples.customer_corrected
                   (rows (fst (Correction.correct_issues (H := Reference.external)
                                 Examples.customer)))).
  { vm_compute. left. reflexivity. }
  pose proof (corrected_values_canonical (H := Reference.external)
                Examples.customer Examples.customer_corrected Hin)
    as (Hcountry & _ & _ & _ & _ & Hage).
  split; [exact Hin|]. split; [exact (Hcountry eq_refl)|].
  apply (Hage eq_refl). exists (VInt 34). split; [left; reflexivity | reflexivity].
Defined.

(** Counterexample to C2 as stated: the country [Unknown] is reported by
    every detection pass and calls for enrichment after every correction;
    with a service whose replies cannot be parsed the table never changes,
    and the run makes four detection passes. *)
Lemma four_detection_passes :
  exists st,
    Cli.main (H := Reference.external) Examples.empty_reply Examples.unknown_country
    = Some (Cli.Finished Cli.IterationsUsedUp st)
    /\ Cli.iterations st = 3%nat
    /\ Cli.detection_passes st = 4%nat
    /\ ~ (Cli.detection_passes st <= 3)%nat.
Proof.
  eexists. split; [vm_compute; reflexivity|].
  split; [reflexivity|]. split; [reflexivity | vm_compute; lia].
Qed.

(** The same with a well-formed reply: the service returns the table it
    was sent, the country stays [Unknown], and the run makes four detection
    passes. *)
Example four_detection_passes_on_echo :
  exists st,
    Cli.main (H := Reference.external) Examples.echo_unknown_country
             Examples.unknown_country
    = Some (Cli.Finished Cli.IterationsUsedUp st)
    /\ Cli.detection_passes st = 4%nat.
Proof. eexists. split; [vm_compute; reflexivity | reflexivity]. Qed.

(** Counterexample to C3 as stated: on a table with nothing to report the
    run ends after the first detection pass, and the table written as
    output has the Issues Column that pass added. *)
Lemma clean_table_keeps_issues_column :
  exists st,
    Cli.main (H := Reference.external) Examples.failing_service Examples.clean
    = Some (Cli.Finished Cli.NoIssuesLeft st)
    /\ has_column "issues" (Cli.df st) = true
    /\ columns (Cli.df st) = ["gender"; "issues"].
Proof.
  eexists. split; [vm_compute; reflexivity|]. split; reflexivity.
Qed.

(** Witness of C3 as amended, on the same run. *)
Lemma issues_column_at_exit_witness :
  exists st,
    Cli.main (H := Reference.external) Examples.failing_service Examples.clean
    = Some (Cli.Finished Cli.NoIssuesLeft st)
    /\ has_column "issues" (Cli.df st) = true
    /\ forall r, In r (rows (Cli.df st)) ->
                 Py.strip (str (H := Reference.external) (cell "issues" r)) = "".
Proof.
  eexists. split; [vm_compute; reflexivity|].
  apply (issues_column_at_exit (H := Reference.external)
           Examples.failing_service Examples.clean Cli.NoIssuesLeft).
  vm_compute. reflexivity.
Defined.

(** ** C1 *)

(** C1, on the code: when the call to the text service raises,
    [gemini_generate] returns the text [Unknown]; the CSV readers take that
    text for a header with one field and no data row, so the enrichment
    stage replaces the table by the empty table with the single column
    [Unknown] and logs a success, not a failure. *)
Theorem enrichment_after_failed_call `{External} (df : DataFrame) :
  csv_field_count "Unknown" = Some 1%nat ->
  read_csv "Unknown" = Some (Frame ["Unknown"] []) ->
  Enrichment.enrich_data None df =
  (Frame ["Unknown"] [],
   (if has_column "Unknown" df then [] else [NewColumn "Unknown" []])
   ++ [EnrichedAll]).
Proof.
  intros Hcount Hread. unfold Enrichment.enrich_data.
  change (Py.strip (Re.remove_code_fence (Enrichment.gemini_generate None)))
    with "Unknown".
  rewrite (parse_unknown Hcount), Hread, filled_logs_empty_table.
  unfold Enrichment.new_column_logs, Enrichment.clear_issues; simpl.
  by destruct (has_column "Unknown" df).
Qed.

(** Witness of C1 on a table of two records. *)
Lemma enrichment_after_failed_call_witness :
  csv_field_count (External := Reference.external) "Unknown" = Some 1%nat
  /\ read_csv (External := Reference.external) "Unknown"
     = Some (Frame ["Unknown"] [])
  /\ Enrichment.enrich_data (H := Reference.external) None Examples.two_genders
     = (Frame ["Unknown"] [], [NewColumn "Unknown" []; EnrichedAll]).
Proof.
  split; [reflexivity|]. split; [reflexivity|].
  exact (enrichment_after_failed_call (H := Reference.external)
           Examples.two_genders eq_refl eq_refl).
Defined.

(** ** C5 *)

(** C5, on the code: [UAE] is a member of the country vocabulary, but
    [match_country] compares its title-cased form [Uae] with the
    vocabulary, finds no equal entry, and leaves the cell to the matcher:
    the result is the best match of [Uae] if its score exceeds 70, and
    [Unknown] otherwise. *)
Theorem uae_is_left_to_the_matcher `{External} :
  Py.mem "UAE" Correction.CANONICAL_COUNTRIES = true
  /\ Correction.match_country (VStr "UAE") =
     match Correction.extractOne "Uae" Correction.CANONICAL_COUNTRIES with
     | Some (found, score) => if Qltb 70 score then VStr found else VStr "Unknown"
     | None => VStr "Unknown"
     end.
Proof. split; reflexivity. Qed.

(** With the case-sensitive token sort ratio the best match of [Uae] is
    [France] at 400/9 percent, so the cell [UAE] becomes [Unknown], which
    detection then reports as a non-canonical country. *)
Example uae_becomes_unknown :
  Correction.extractOne (H := Reference.external) "Uae" Correction.CANONICAL_COUNTRIES
  = Some ("France", 400 # 9)
  /\ column "country" (fst (Correction.correct_issues (H := Reference.external)
                              Examples.uae))
     = [VStr "Unknown"]
  /\ Detection.isin Detection.CANONICAL_COUNTRIES (VStr "Unknown") = false.
Proof. split; [vm_compute; reflexivity|]. split; vm_compute; reflexivity. Qed.

(** The part of C5 that holds: the two agents use the same country
    vocabulary, and a country cell that correction sets to anything but the
    sentinel is a member of it, so the detection rule does not report it. *)
Lemma corrected_country_passes_detection `{External} (x : value) (r : row) :
  Detection.CANONICAL_COUNTRIES = Correction.CANONICAL_COUNTRIES
  /\ (cell "country" r = Correction.match_country x ->
      cell "country" r <> VStr "Unknown" ->
      Detection.non_canonical_mask r = false).
Proof.
  split; [reflexivity|]. intros Hcell Hne.
  unfold Detection.non_canonical_mask. rewrite Hcell in *.
  destruct (fuzzy_match_canonical Correction.CANONICAL_COUNTRIES 70 x) as [Hu|Hin].
  - by destruct Hne.
  - unfold Correction.match_country.
    change Detection.CANONICAL_COUNTRIES with Correction.CANONICAL_COUNTRIES.
    by rewrite Hin.
Qed.

(** ** C8 *)

(** C8, on the code: with the ages 10, 120, 120 and -5 the ages that are
    numeric and in (0, 120] are 10, 120 and 120, with median 120; the
    correction stage takes the median of the ages strictly below 120 only,
    which is 10, and replaces -5 by 10. *)
Theorem age_120_is_left_out_of_the_median `{External} :
  column "age" Examples.ages_with_120 = [VInt 10; VInt 120; VInt 120; VInt (-5)]
  /\ median (omap py_num (List.filter plausible_per_spec
                                      (column "age" Examples.ages_with_120)))
     = Some 120%Q
  /\ column "age" (fst (Correction.correct_issues Examples.ages_with_120))
     = [VInt 10; VInt 120; VInt 120; VFloat 10].
Proof. split; [reflexivity|]. split; vm_compute; reflexivity. Qed.

(** The scenario of the specification holds: -5 among 30, 40 and 50
    becomes 40. *)
Example scenario_age_becomes_40 `{External} :
  column "age" (fst (Correction.correct_issues Examples.scenario_ages))
  = [VFloat 40; VInt 30; VInt 40; VInt 50].
Proof. vm_compute. reflexivity. Qed.

(** ** C4 *)




(** * Further properties of the agents *)

(** ** Detection *)

Lemma same_cell_sym a b : same_cell a b = same_cell b a.
Proof.
  assert (Hq : forall p q, Qeq_bool p q = Qeq_bool q p).
  { intros p q. apply eq_true_iff_eq. rewrite !Qeq_bool_iff. split; intros Heq; by symmetry. }
  destruct a as [|x|x|x|x], b as [|y|y|y|y]; simpl; try done; try apply Hq.
  apply String.eqb_sym.
Qed.

Lemma same_row_sym cols r1 r2 : same_row cols r1 r2 = same_row cols r2 r1.
Proof.
  unfold same_row. induction cols as [|c cols IH]; simpl; [done|].
  by rewrite same_cell_sym, IH.
Qed.

Lemma two_positions {A : Type} (f : A -> bool) (l : list A) i j a b :
  i <> j -> l !! i = Some a -> l !! j = Some b -> f a = true -> f b = true ->
  (2 <= length (List.filter f l))%nat.
Proof.
  revert i j. induction l as [|x l IH]; intros i j Hij Hi Hj Ha Hb; [done|].
  assert (Hone : forall k c, l !! k = Some c -> f c = true ->
                             (1 <= length (List.filter f l))%nat).
  { intros k c Hk Hc. assert (Hin : In c (List.filter f l)).
    { apply filter_In. split; [|done]. apply list_elem_of_In.
      by eapply list_elem_of_lookup_2. }
    destruct (List.filter f l); [done | simpl; lia]. }
  destruct i as [|i], j as [|j]; simpl in *; try done.
  - injection Hi as ->. rewrite Ha. simpl. specialize (Hone j b Hj Hb). lia.
  - injection Hj as ->. rewrite Hb. simpl. specialize (Hone i a Hi Ha). lia.
  - assert (Hl : (2 <= length (List.filter f l))%nat) by (eapply (IH i j); eauto).
    destruct (f x); simpl; lia.
Qed.

Section DetectionFacts.
Context `{External}.

Lemma fst_check df col mask tag what acc :
  fst (Detection.check df col mask tag what acc)
  = fst acc ++ (if has_column col df then [Detection.tag_series mask tag] else []).
Proof.
  unfold Detection.check. destruct (has_column col df); simpl; [done|].
  by rewrite app_nil_r.
Qed.

(** The series of the duplicate rule is always among the issues. *)
Lemma duplicate_series_present df :
  In (Detection.tag_series (duplicated df) "Duplicate") (fst (Detection.run_rules df)).
Proof.
  unfold Detection.run_rules. simpl fold_left. unfold Detection.check_name.
  rewrite !fst_check. unfold Detection.check_duplicates. cbn [fst].
  rewrite !in_app_iff. left. left. left. right. by left.
Qed.

Lemma check_never_tag tag0 df col mask tag what acc r :
  tag0 <> "" ->
  (tag <> tag0 \/ mask r = false) ->
  Forall (never_tag tag0 r) (fst acc) ->
  Forall (never_tag tag0 r) (fst (Detection.check df col mask tag what acc)).
Proof.
  intros Hne Htag Hacc. rewrite fst_check. apply Forall_app. split; [done|].
  destruct (has_column col df); [|by apply Forall_nil].
  constructor; [|by apply Forall_nil].
  unfold never_tag, Detection.tag_series.
  destruct (mask r) eqn:Hm; [|congruence]. destruct Htag; [done|congruence].
Qed.

Lemma tag_duplicate_only_from_rule df r :
  duplicated df r = false ->
  Forall (never_tag "Duplicate" r) (fst (Detection.run_rules df)).
Proof.
  intros Hr. unfold Detection.run_rules. simpl fold_left.
  unfold Detection.check_name, Detection.check_duplicates.
  do 3 (apply check_never_tag; [done | by left |]).
  cbn [fst]. apply Forall_app. split.
  - repeat first [ apply check_never_tag; [done | by left |] | by apply Forall_nil ].
  - constructor; [|by apply Forall_nil]. unfold never_tag, Detection.tag_series.
    by rewrite Hr.
Qed.

Lemma tag_in_row_tags issues r (series : row -> string) :
  In series issues -> series r <> "" -> In (series r) (Detection.row_tags issues r).
Proof.
  intros Hin Hne. unfold Detection.row_tags. apply filter_In. split.
  - apply in_map_iff. by exists series.
  - apply negb_true_iff. by apply String.eqb_neq.
Qed.

Lemma duplicate_tag_iff df r :
  In "Duplicate" (Detection.row_tags (fst (Detection.run_rules df)) r)
  <-> duplicated df r = true.
Proof.
  split.
  - intros Hin. destruct (duplicated df r) eqn:Hd; [done|]. exfalso.
    unfold Detection.row_tags in Hin. apply filter_In in Hin. destruct Hin as [Hin _].
    apply in_map_iff in Hin. destruct Hin as (series & Heq & Hin).
    pose proof (tag_duplicate_only_from_rule df r Hd) as Hall.
    rewrite Forall_forall in Hall. apply (Hall series); [|done].
    by apply list_elem_of_In.
  - intros Hd.
    pose proof (tag_in_row_tags _ r _ (duplicate_series_present df)) as Htag.
    unfold Detection.tag_series in Htag. rewrite Hd in Htag. by apply Htag.
Qed.

End DetectionFacts.


(** X2: duplicate detection keeps no first occurrence: two rows at
    different positions of the table that agree on every column both carry
    the tag [Duplicate]. *)
Theorem both_duplicates_are_tagged `{External} (df : DataFrame) (i j : nat) (r1 r2 : row) :
  i <> j -> rows df !! i = Some r1 -> rows df !! j = Some r2 ->
  same_row (columns df) r1 r2 = true ->
  In "Duplicate" (Detection.row_tags (fst (Detection.run_rules df)) r1)
  /\ In "Duplicate" (Detection.row_tags (fst (Detection.run_rules df)) r2).
Proof.
  intros Hij Hi Hj Hsame. split; apply duplicate_tag_iff; unfold duplicated;
    apply Nat.leb_le.
  - apply (two_positions _ _ i j r1 r2); [done | done | done | apply same_row_refl | done].
  - apply (two_positions _ _ i j r1 r2); [done | done | done | | apply same_row_refl].
    by rewrite same_row_sym.
Qed.

(** Witness of X2 on a table of two equal records. *)
Lemma both_duplicates_are_tagged_witness :
  In "Duplicate"
     (Detection.row_tags
        (fst (Detection.run_rules (H := Reference.external) Examples.twins))
        (Row 0 (list_to_map [("gender", VStr "Male")])))
  /\ In "Duplicate"
        (Detection.row_tags
           (fst (Detection.run_rules (H := Reference.external) Examples.twins))
           (Row 1 (list_to_map [("gender", VStr "Male")]))).
Proof.
  apply (both_duplicates_are_tagged (H := Reference.external) Examples.twins 0 1);
    [lia | reflexivity | reflexivity | vm_compute; reflexivity].
Defined.

(** ** De-duplication *)

Lemma kept_rows_differ_from_seen cols seen rs x :
  In x (keep_first cols seen rs) -> existsb (same_row cols x) seen = false.
Proof.
  revert seen. induction rs as [|r rs IH]; intros seen; simpl; [done|].
  destruct (existsb (same_row cols r) seen) eqn:Hr; [apply IH|].
  intros [<-|Hx]; [done|]. specialize (IH _ Hx). simpl in IH.
  by apply orb_false_iff in IH as [_ ?].
Qed.

Lemma kept_rows_differ cols seen rs x :
  In x (keep_first cols seen rs) ->
  (length (List.filter (same_row cols x) (keep_first cols seen rs)) < 2)%nat.
Proof.
  revert seen. induction rs as [|r rs IH]; intros seen; simpl; [done|].
  destruct (existsb (same_row cols r) seen) eqn:Hr; [apply IH|].
  assert (Hlater : forall y, In y (keep_first cols (r :: seen) rs) ->
                             same_row cols y r = false).
  { intros y Hy. apply kept_rows_differ_from_seen in Hy. simpl in Hy.
    by apply orb_false_iff in Hy as [? _]. }
  intros [<-|Hx]; cbn [List.filter].
  - rewrite same_row_refl. cbn [length].
    rewrite filter_none; [simpl; lia|].
    intros y Hy. rewrite same_row_sym. by apply Hlater.
  - rewrite (Hlater x Hx). by apply IH.
Qed.

Lemma length_keep_first cols seen rs :
  (length (keep_first cols seen rs) <= length rs)%nat.
Proof.
  revert seen. induction rs as [|r rs IH]; intros seen; simpl; [done|].
  destruct (existsb (same_row cols r) seen); simpl.
  - specialize (IH seen). lia.
  - specialize (IH (r :: seen)). lia.
Qed.

(** X3: [drop_duplicates] leaves no duplicate: no row of its result is
    reported by [duplicated] on that result, dropping duplicates a second
    time changes nothing, and every row of the input agrees on every column
    with a row that was kept. *)
Theorem drop_duplicates_leaves_none (df : DataFrame) :
  (forall r, In r (rows (drop_duplicates df)) ->
             duplicated (drop_duplicates df) r = false)
  /\ drop_duplicates (drop_duplicates df) = drop_duplicates df
  /\ (forall r, In r (rows df) ->
        exists r0, In r0 (rows (drop_duplicates df))
                   /\ same_row (columns df) r r0 = true).
Proof.
  assert (Hnone : forall r, In r (rows (drop_duplicates df)) ->
            (length (List.filter (same_row (columns df) r)
                                 (rows (drop_duplicates df))) < 2)%nat).
  { intros r Hr. by apply kept_rows_differ. }
  split; [|split].
  - intros r Hr. unfold duplicated. apply Nat.leb_gt. by apply Hnone.
  - rewrite (frame_eta (drop_duplicates df)) at 2.
    unfold drop_duplicates at 1. f_equal.
    by apply keep_first_no_duplicates.
  - intros r Hr.
    destruct (keep_first_represents (columns df) [] (rows df) r Hr)
      as [Hex|Hex]; [done | discriminate].
Qed.

(** X4: the correction stage never adds a row and never empties a table:
    its result has at most as many rows as its input, and it has no row
    only when the input has none. *)
Theorem correction_row_count `{External} (df : DataFrame) :
  (length (rows (fst (Correction.correct_issues df))) <= length (rows df))%nat
  /\ (rows (fst (Correction.correct_issues df)) = [] <-> rows df = []).
Proof.
  rewrite rows_corrected, rows_deduplicated. split.
  - rewrite length_map.
    etrans; [apply length_keep_first|]. by rewrite length_map.
  - destruct (rows df) as [|r rs]; simpl; [done|]. split; discriminate.
Qed.

(** ** Enrichment *)

Section EnrichmentFacts.
Context `{External}.

Lemma needs_correction_clear_issues d :
  Cli.needs_correction (Enrichment.clear_issues d) = false.
Proof.
  unfold Enrichment.clear_issues. destruct (has_column "issues" d) eqn:Hc.
  - unfold Cli.needs_correction. rewrite has_column_assign.
    apply not_true_iff_false. rewrite existsb_exists. intros (r & Hr & Hb).
    unfold assign in Hr. cbn [rows] in Hr. apply in_map_iff in Hr.
    destruct Hr as (r0 & <- & _). unfold cell in Hb. cbn [cells] in Hb.
    rewrite lookup_insert_eq in Hb. discriminate.
  - unfold Cli.needs_correction. by rewrite Hc.
Qed.

End EnrichmentFacts.

(** X5: a reply of the text service that is empty or only white space is
    a parse failure: the table is kept, with the cells of its Issues
    Column, if it has one, cleared, and the log is the one parse-error
    entry. *)
Theorem blank_reply_keeps_the_table `{External} (text : string) (df : DataFrame) :
  Py.strip text = "" ->
  Enrichment.enrich_data (Some text) df = (Enrichment.clear_issues df, [ParseError]).
Proof.
  intros Hblank. apply enrich_data_parse_error.
  unfold Enrichment.gemini_generate. rewrite Hblank. reflexivity.
Qed.

(** Witness of X5 on a reply of two spaces. *)
Lemma blank_reply_keeps_the_table_witness :
  Py.strip "  " = ""
  /\ Enrichment.enrich_data (H := Reference.external) (Some "  ") Examples.two_genders
     = (Examples.two_genders, [ParseError]).
Proof.
  split; [reflexivity|].
  exact (blank_reply_keeps_the_table (H := Reference.external) "  "
           Examples.two_genders eq_refl).
Defined.

(** X6: whatever the reply of the text service, the table the enrichment
    stage returns carries no issue: it has no Issues Column, or each cell of
    that column is the empty text. *)
Theorem enrichment_clears_the_issues `{External} (reply : option string) (df : DataFrame) :
  Cli.needs_correction (fst (Enrichment.enrich_data reply df)) = false
  /\ forall r, In r (rows (fst (Enrichment.enrich_data reply df))) ->
               has_column "issues" (fst (Enrichment.enrich_data reply df)) = true ->
               cells r !! "issues" = Some (VStr "").
Proof.
  unfold Enrichment.enrich_data.
  destruct (Enrichment.parse_response _) as [enriched|]; cbn [fst].
  - split; [apply needs_correction_clear_issues|].
    intros r. unfold Enrichment.clear_issues.
    destruct (has_column "issues" enriched) eqn:Hc; [|congruence].
    intros Hr _. unfold assign in Hr. cbn [rows] in Hr. apply in_map_iff in Hr.
    destruct Hr as (r0 & <- & _). cbn [cells]. by rewrite lookup_insert_eq.
  - split; [apply needs_correction_clear_issues|].
    intros r. unfold Enrichment.clear_issues.
    destruct (has_column "issues" df) eqn:Hc; [|congruence].
    intros Hr _. unfold assign in Hr. cbn [rows] in Hr. apply in_map_iff in Hr.
    destruct Hr as (r0 & <- & _). cbn [cells]. by rewrite lookup_insert_eq.
Qed.

(** ** The orchestrator *)


(** Two runs that fail.  On a table without rows that has an age column
    the first detection pass raises.  And when the third call of the text
    service raises, enrichment replaces the table by one without rows, and
    the re-check raises after its detection pass. *)
Example header_only_input_fails :
  exists st,
    Cli.main (H := Reference.external) Examples.empty_reply Examples.header_only
    = Some (Cli.Failed st)
    /\ Cli.calls st = [Cli.DetectionAgent].
Proof. eexists. split; [vm_compute; reflexivity | reflexivity]. Qed.

Example recheck_fails_on_emptied_table :
  exists st,
    Cli.main (H := Reference.external) Examples.fails_at_third Examples.unknown_country
    = Some (Cli.Failed st)
    /\ Cli.calls st = cycles 3 ++ [Cli.DetectionAgent]
    /\ has_column "issues" (Cli.df st) = true.
Proof. eexists. split; [vm_compute; reflexivity | split; reflexivity]. Qed.

(** X8: the table a run writes as output has no Issues Column exactly when
    the loop was left because correction alone sufficed; after every other
    run that writes its table, also one that used up its iterations, the
    output has the Issues Column of the last detection pass. *)
Theorem output_issues_column `{External}
        (service : nat -> option string) (input : DataFrame)
        (e : Cli.exit) (st : Cli.state) :
  Cli.main service input = Some (Cli.Finished e st) ->
  (has_column "issues" (Cli.df st) = false <-> e = Cli.CorrectionSufficed).
Proof.
  intros Hrun. destruct (main_runs service input) as (o & k & Hmain & _ & Hexit).
  rewrite Hmain in Hrun. injection Hrun as ->.
  destruct (Hexit e st eq_refl) as [_ ->].
  destruct e; cbn [issues_column_written]; split; (done || discriminate).
Qed.

(** Witness of X8 on a run that uses up its iterations. *)
Lemma output_issues_column_witness :
  exists st,
    Cli.main (H := Reference.external) Examples.empty_reply Examples.unknown_country
    = Some (Cli.Finished Cli.IterationsUsedUp st)
    /\ has_column "issues" (Cli.df st) <> false.
Proof.
  eexists. split; [vm_compute; reflexivity|].
  intros Hno.
  apply (output_issues_column (H := Reference.external)
           Examples.empty_reply Examples.unknown_country Cli.IterationsUsedUp) in Hno;
    [discriminate | vm_compute; reflexivity].
Defined.

(** X9: when the first detection pass returns and reports nothing, the run
    is that one pass, whatever the text service would reply: no other agent
    is called, and the table detection returned is written as output. *)
Theorem clean_input_is_one_pass `{External}
        (service : nat -> option string) (input out : DataFrame)
        (logs : list log_entry) :
  Detection.detect_issues input = Some (out, logs) ->
  Cli.needs_correction out = false ->
  exists st,
    Cli.main service input = Some (Cli.Finished Cli.NoIssuesLeft st)
    /\ Cli.df st = out
    /\ Cli.calls st = [Cli.DetectionAgent].
Proof.
  intros Hdet Hclean. unfold Cli.main. rewrite loop_unfold.
  change (0 <? Cli.max_iterations)%nat with true. cbv zeta iota.
  match goal with
  | |- context [Cli.call Cli.DetectionAgent Cli.detect_issues ?s] =>
      rewrite (call_done Cli.DetectionAgent Cli.detect_issues s out logs Hdet)
  end.
  cbn [Cli.and_then Cli.df]. rewrite Hclean.
  eexists. split; [reflexivity|]. done.
Qed.

(** Witness of X9 on a record with nothing to report. *)
Lemma clean_input_is_one_pass_witness :
  exists st,
    Cli.main (H := Reference.external) Examples.failing_service Examples.clean
    = Some (Cli.Finished Cli.NoIssuesLeft st)
    /\ columns (Cli.df st) = ["gender"; "issues"]
    /\ Cli.calls st = [Cli.DetectionAgent].
Proof.
  destruct (Detection.detect_issues (H := Reference.external) Examples.clean)
    as [[out logs]|] eqn:Hdet; [|vm_compute in Hdet; discriminate].
  assert (Hclean : Cli.needs_correction (H := Reference.external) out = false).
  { vm_compute in Hdet. injection Hdet as <- _. vm_compute. reflexivity. }
  destruct (clean_input_is_one_pass (H := Reference.external)
              Examples.failing_service Examples.clean out logs Hdet Hclean)
    as (st & Hmain & Hdf & Hcalls).
  exists st. split; [exact Hmain|]. split; [|exact Hcalls].
  rewrite Hdf. vm_compute in Hdet. injection Hdet as <- _. reflexivity.
Defined.

(** ** Detection on a corrected table *)

Lemma lower_upper c : Py.lower_char (Py.upper_char c) = Py.lower_char c.
Proof. each_char c. Qed.

Lemma lower_title_from p s : Py.lower (Py.title_from p s) = Py.lower s.
Proof.
  revert p. induction s as [|c s IH]; intros p; [done|].
  rewrite title_from_unfold. destruct (cased c); cbn [Py.lower]; rewrite IH; [|done].
  destruct p; by rewrite ?lower_lower, ?lower_upper.
Qed.

Lemma lower_char_n c : Py.lower_char c = "n"%char -> c = "n"%char \/ c = "N"%char.
Proof.
  destruct c as [[] [] [] [] [] [] [] []]; vm_compute; intros Heq;
    first [discriminate | by left | by right].
Qed.

Lemma lower_char_a c : Py.lower_char c = "a"%char -> c = "a"%char \/ c = "A"%char.
Proof.
  destruct c as [[] [] [] [] [] [] [] []]; vm_compute; intros Heq;
    first [discriminate | by left | by right].
Qed.

(** The only title-cased text that reads [nan] in lower case is [Nan]. *)
Lemma title_of_nan s : Py.lower s = "nan" -> Py.title s = "Nan".
Proof.
  destruct s as [|a [|b [|c [|? ?]]]]; try discriminate.
  intros Hlow. change (String (Py.lower_char a) (String (Py.lower_char b)
                    (String (Py.lower_char c) EmptyString)) = "nan") in Hlow.
  injection Hlow as Ha Hb Hc.
  destruct (lower_char_n a Ha) as [->| ->], (lower_char_a b Hb) as [->| ->],
    (lower_char_n c Hc) as [->| ->]; reflexivity.
Qed.

Section AfterCorrection.
Context `{External}.

(** A standardized name is neither blank nor [nan]. *)
Lemma standard_name_filled x :
  exists s, Correction.standard_name x = VStr s
            /\ Py.strip s <> "" /\ Py.lower s <> "nan".
Proof.
  unfold Correction.standard_name.
  destruct (Py.mem (Py.strip (Py.title (str x))) ["Nan"; "nan"; ""]) eqn:Hmem.
  - exists "Unknown". split; [done|]. split; discriminate.
  - eexists. split; [reflexivity|].
    assert (Hnot : ~ In (Py.strip (Py.title (str x))) ["Nan"; "nan"; ""]).
    { rewrite <- mem_In. by rewrite Hmem. }
    split.
    + rewrite strip_idempotent. intros Heq. apply Hnot. rewrite Heq. simpl. tauto.
    + intros Hlow. apply Hnot. rewrite <- title_strip in *.
      unfold Py.title in Hlow. rewrite lower_title_from in Hlow.
      rewrite (title_of_nan _ Hlow). by left.
Qed.

Lemma standard_name_not_empty col x r :
  cell col r = Correction.standard_name x -> Detection.empty_name_mask col r = false.
Proof.
  intros Hcell. destruct (standard_name_filled x) as (s & Hs & Hstrip & Hlow).
  unfold Detection.empty_name_mask. rewrite Hcell, Hs. cbn [isnull str orb].
  apply orb_false_iff. split; by apply String.eqb_neq.
Qed.

Lemma non_negative_passes x r :
  cell "loyalty_points" r = x -> non_negative x ->
  Detection.invalid_loyalty_mask r = false.
Proof.
  intros Hcell (q & Hq & Hge). unfold Detection.invalid_loyalty_mask. rewrite Hcell.
  cbv zeta. unfold num_lt. rewrite Hq.
  assert (Hlt : Qltb q 0 = false) by (by apply Qltb_ge).
  rewrite Hlt, andb_false_r. by destruct x.
Qed.

Lemma plausible_age_passes x r :
  cell "age" r = x -> plausible_age x -> Detection.invalid_age_mask r = false.
Proof.
  intros Hcell (q & Hq & Hlo & Hhi). unfold Detection.invalid_age_mask. rewrite Hcell.
  cbv zeta. unfold num_le, num_gt. rewrite Hq.
  assert (Hle : Qle_bool q 0 = false) by (by apply Qle_bool_gt).
  assert (Hgt : Qltb 120 q = false) by (by apply Qltb_ge).
  rewrite Hle, Hgt, andb_false_r. by destruct x.
Qed.

Lemma cell_name df r col :
  In col name_columns ->
  cell col (after_dedup df (before_dedup df r)) =
  if has_column col df then Correction.standard_name (cell col r) else cell col r.
Proof.
  unfold name_columns. simpl. intros [<-|[<-|[<-|[]]]]; by cells.
Qed.

(** The rules that report nothing on a record of a corrected table. *)
Lemma rules_met_after_correction df r :
  In r (rows (fst (Correction.correct_issues df))) ->
  (has_column "phone" df = true -> Detection.invalid_phone_mask r = false)
  /\ (has_column "gender" df = true -> Detection.invalid_gender_mask r = false)
  /\ (has_column "marital_status" df = true ->
      Detection.invalid_marital_mask r = false)
  /\ (has_column "loyalty_points" df = true ->
      Detection.invalid_loyalty_mask r = false)
  /\ (forall col, In col name_columns -> has_column col df = true ->
                  Detection.empty_name_mask col r = false).
Proof.
  intros Hr. destruct (corrected_row_inv df r Hr) as (r0 & _ & ->).
  split; [|split; [|split; [|split]]].
  - intros Hc. unfold Detection.invalid_phone_mask.
    by rewrite cell_phone, Hc, standard_phone_matches.
  - intros Hc. unfold Detection.invalid_gender_mask. rewrite cell_gender, Hc.
    change Detection.GENDERS with Correction.GENDERS.
    by rewrite standard_gender_isin.
  - intros Hc. unfold Detection.invalid_marital_mask. rewrite cell_marital, Hc.
    change Detection.MARITAL_STATUSES with Correction.MARITAL_STATUSES.
    by rewrite standard_marital_isin.
  - intros Hc. eapply non_negative_passes; [reflexivity|].
    rewrite cell_loyalty, Hc. apply standard_loyalty_non_negative.
  - intros col Hcol Hc. apply (standard_name_not_empty col (cell col r0)).
    by rewrite (cell_name df r0 col Hcol), Hc.
Qed.

Lemma check_within allowed df col mask tag what acc r :
  (In tag allowed \/ (has_column col df = true -> mask r = false)) ->
  Forall (tag_within allowed r) (fst acc) ->
  Forall (tag_within allowed r) (fst (Detection.check df col mask tag what acc)).
Proof.
  intros Htag Hacc. rewrite fst_check. apply Forall_app. split; [done|].
  destruct (has_column col df) eqn:Hc; [|by apply Forall_nil].
  constructor; [|by apply Forall_nil].
  unfold tag_within, Detection.tag_series.
  destruct (mask r) eqn:Hm; [|by left]. destruct Htag as [Hin|Hno]; [by right|].
  specialize (Hno eq_refl). congruence.
Qed.

End AfterCorrection.

(** X10: what correction settles for detection.  On a record of the table
    the correction stage returns, the detection rules for gender, marital
    status, loyalty points and the three name columns report nothing, the age rule reports nothing provided some record of the input
    has a numeric age strictly between 0 and 120, and so the only tags the
    rules can give the record are Invalid Email, Invalid Age, Non-canonical
    Country and Duplicate. *)
Theorem tags_after_correction `{External} (df : DataFrame) (r : row) :
  let once := fst (Correction.correct_issues df) in
  In r (rows once) ->
  (has_column "gender" df = true -> Detection.invalid_gender_mask r = false)
  /\ (has_column "marital_status" df = true ->
      Detection.invalid_marital_mask r = false)
  /\ (has_column "loyalty_points" df = true ->
      Detection.invalid_loyalty_mask r = false)
  /\ (forall col, In col name_columns -> has_column col df = true ->
                  Detection.empty_name_mask col r = false)
  /\ (has_column "age" df = true ->
      (exists x, In x (column "age" df) /\ Correction.counts_for_median x = true) ->
      Detection.invalid_age_mask r = false)
  /\ (forall tag, In tag (Detection.row_tags (fst (Detection.run_rules once)) r) ->
                  In tag tags_left_by_correction).
Proof.
  intros once Hr.
  destruct (rules_met_after_correction df r Hr) as (Hphone & Hgender & Hmarital & Hloyalty & Hnames).
  split; [done|]. split; [done|]. split; [done|]. split; [done|]. split.
  - intros Hc Hex. destruct (corrected_row_inv df r Hr) as (r0 & _ & ->).
    eapply plausible_age_passes; [reflexivity|]. rewrite cell_age, Hc.
    by apply standard_age_plausible, median_used_plausible.
  - assert (Hhas : forall col, col <> "issues" -> has_column col once = has_column col df)
      by (intros col Hne; by apply has_column_corrected).
    assert (Hall : Forall (tag_within tags_left_by_correction r)
                          (fst (Detection.run_rules once))).
    { unfold Detection.run_rules. simpl fold_left.
      unfold Detection.check_name, Detection.check_duplicates.
      apply check_within.
      { right. rewrite Hhas by discriminate. apply Hnames. simpl. tauto. }
      apply check_within.
      { right. rewrite Hhas by discriminate. apply Hnames. simpl. tauto. }
      apply check_within.
      { right. rewrite Hhas by discriminate. apply Hnames. simpl. tauto. }
      cbn [fst]. apply Forall_app. split.
      - apply check_within; [left; simpl; tauto|].
        apply check_within; [right; by rewrite Hhas by discriminate|].
        apply check_within; [left; simpl; tauto|].
        apply check_within; [right; by rewrite Hhas by discriminate|].
        apply check_within; [right; by rewrite Hhas by discriminate|].
        apply check_within; [right; by rewrite Hhas by discriminate|].
        apply check_within; [left; simpl; tauto|].
        by apply Forall_nil.
      - constructor; [|by apply Forall_nil].
        unfold tag_within, Detection.tag_series.
        destruct (duplicated once r); [right; simpl; tauto | by left]. }
    intros tag Htag. unfold Detection.row_tags in Htag.
    apply filter_In in Htag. destruct Htag as [Hin Hne].
    apply in_map_iff in Hin. destruct Hin as (series & <- & Hin).
    rewrite Forall_forall in Hall.
    destruct (Hall series) as [Hempty|Hok]; [by apply list_elem_of_In | | done].
    rewrite Hempty in Hne. discriminate.
Qed.

(** Witness of X10 on a record with a cell in each column. *)
Lemma tags_after_correction_witness :
  In Examples.customer_corrected
     (rows (fst (Correction.correct_issues (H := Reference.external)
                   Examples.customer)))
  /\ forall tag,
       In tag (Detection.row_tags
                 (fst (Detection.run_rules (H := Reference.external)
                         (fst (Correction.correct_issues (H := Reference.external)
                                 Examples.customer))))
                 Examples.customer_corrected) ->
       In tag tags_left_by_correction.
Proof.
  assert (Hin : In Examples.customer_corrected
                   (rows (fst (Correction.correct_issues (H := Reference.external)
                                 Examples.customer)))).
  { vm_compute. left. reflexivity. }
  split; [exact Hin|].
  exact (proj2 (proj2 (proj2 (proj2 (proj2
           (tags_after_correction (H := Reference.external)
              Examples.customer Examples.customer_corrected Hin)))))).
Defined.

(** ** The fuzzy matcher *)

Section Matcher.
Context `{External}.

(** [extractOne] returns a choice with its score, and no choice scores
    higher. *)
Lemma fold_better_best query cs best :
  snd best = token_sort_ratio query (fst best) ->
  let res := fold_left (Correction.better query) cs best in
  snd res = token_sort_ratio query (fst res)
  /\ (snd best <= snd res)%Q
  /\ forall c, In c cs -> (token_sort_ratio query c <= snd res)%Q.
Proof.
  revert best. induction cs as [|c cs IH]; intros best Hbest; cbn [fold_left].
  - split; [done|]. split; [apply Qle_refl | intros c []].
  - cbv zeta.
    destruct (Qltb (snd best) (token_sort_ratio query c)) eqn:Hlt.
    + assert (Hb : Correction.better query best c = (c, token_sort_ratio query c))
        by (unfold Correction.better; by rewrite Hlt).
      rewrite Hb.
      destruct (IH (c, token_sort_ratio query c) eq_refl) as (Hres & Hle & Hall).
      split; [exact Hres|]. cbn [snd] in Hle. apply Qltb_lt in Hlt. split.
      * apply Qlt_le_weak. eapply Qlt_le_trans; eauto.
      * intros c' [<-|Hc]; [exact Hle | by apply Hall].
    + assert (Hb : Correction.better query best c = best)
        by (unfold Correction.better; by rewrite Hlt).
      rewrite Hb.
      destruct (IH best Hbest) as (Hres & Hle & Hall).
      split; [exact Hres|]. split; [exact Hle|]. apply Qltb_ge in Hlt.
      intros c' [<-|Hc]; [eapply Qle_trans; eauto | by apply Hall].
Qed.

Lemma extractOne_best query choices found score :
  Correction.extractOne query choices = Some (found, score) ->
  In found choices
  /\ score = token_sort_ratio query found
  /\ forall c, In c choices -> (token_sort_ratio query c <= score)%Q.
Proof.
  intros He. split; [by eapply extractOne_choice|].
  destruct choices as [|c cs]; [done|]. cbn [Correction.extractOne] in He.
  injection He as He.
  destruct (fold_better_best query cs (c, token_sort_ratio query c) eq_refl)
    as (Hres & Hle & Hall).
  rewrite He in Hres, Hle, Hall. cbn [fst snd] in *. split; [exact Hres|].
  intros c' [<-|Hc]; [exact Hle | by apply Hall].
Qed.

End Matcher.

(** X11: the threshold of the fuzzy matcher is strict.  For a cell that is
    not missing and whose cleaned text is neither empty, nor [Unknown], nor
    an entry of the vocabulary: the result is [Unknown] when no entry
    scores above the threshold (a score equal to the threshold is
    rejected), and otherwise it is an entry of the vocabulary that scores
    above the threshold and at least as high as every other entry. *)
Theorem threshold_is_strict `{External}
        (vocabulary : list string) (threshold : Q) (val : value) :
  let val_clean := Py.title (Py.strip (str val)) in
  isnull val = false -> val_clean <> "" -> val_clean <> "Unknown" ->
  Py.mem val_clean vocabulary = false ->
  ((forall c, In c vocabulary -> (token_sort_ratio val_clean c <= threshold)%Q) ->
   Correction.fuzzy_match vocabulary threshold val = VStr "Unknown")
  /\ ((exists c, In c vocabulary /\ (threshold < token_sort_ratio val_clean c)%Q) ->
      exists found,
        Correction.fuzzy_match vocabulary threshold val = VStr found
        /\ In found vocabulary
        /\ (threshold < token_sort_ratio val_clean found)%Q
        /\ forall c, In c vocabulary ->
                     (token_sort_ratio val_clean c <= token_sort_ratio val_clean found)%Q).
Proof.
  intros val_clean Hnull Hne Hunk Hmem.
  assert (Hfuzzy : Correction.fuzzy_match vocabulary threshold val =
                   match Correction.extractOne val_clean vocabulary with
                   | Some (found, score) =>
                       if Qltb threshold score then VStr found else VStr "Unknown"
                   | None => VStr "Unknown"
                   end).
  { unfold Correction.fuzzy_match. fold val_clean. rewrite Hnull, Hmem.
    apply String.eqb_neq in Hne, Hunk. by rewrite Hne, Hunk. }
  rewrite Hfuzzy.
  destruct (Correction.extractOne val_clean vocabulary) as [[found score]|] eqn:He.
  - destruct (extractOne_best _ _ _ _ He) as (Hin & -> & Hbest). split.
    + intros Hall. specialize (Hall found Hin). apply Qltb_ge in Hall. by rewrite Hall.
    + intros (c & Hc & Hlt).
      assert (Hgt : Qltb threshold (token_sort_ratio val_clean found) = true).
      { apply Qltb_lt. eapply Qlt_le_trans; [exact Hlt | by apply Hbest]. }
      rewrite Hgt. exists found. split; [done|]. split; [done|].
      split; [by apply Qltb_lt | done].
  - split; [done|]. intros (c & Hc & _). by destruct vocabulary.
Qed.

(** Witness of X11 on a misspelt country. *)
Lemma threshold_is_strict_witness :
  exists found,
    Correction.fuzzy_match (H := Reference.external)
      Correction.CANONICAL_COUNTRIES 70 (VStr "Indai") = VStr found
    /\ In found Correction.CANONICAL_COUNTRIES.
Proof.
  destruct (threshold_is_strict (H := Reference.external)
              Correction.CANONICAL_COUNTRIES 70 (VStr "Indai"))
    as [_ Hfound]; [reflexivity | discriminate | discriminate | reflexivity |].
  destruct Hfound as (found & Hf & Hin & _).
  - exists "India". split; [vm_compute; tauto | vm_compute; reflexivity].
  - exists found. by split.
Defined.

(** ** Code fences around the reply *)

Lemma prefix_other c p s :
  Ascii.eqb backtick c = false ->
  String.prefix (String "`"%char p) (String c s) = false.
Proof.
  intros Hc. cbn [String.prefix]. destruct (ascii_dec "`"%char c) as [<-|]; [|done].
  discriminate Hc.
Qed.

Lemma backtick_not_space c : Py.isspace c = true -> Ascii.eqb backtick c = false.
Proof. destruct c as [[] [] [] [] [] [] [] []]; vm_compute; congruence. Qed.

(** A text without a backtick has no match of the pattern. *)
Lemma sub_fence_plain bol s :
  has_char backtick s = false -> Re.sub_fence 0 false bol s = s.
Proof.
  revert bol. induction s as [|c s IH]; intros bol; [done|].
  cbn [has_char]. intros [Hc Hs]%orb_false_iff.
  cbn [Re.sub_fence andb]. rewrite !(prefix_other c) by done.
  rewrite andb_false_r. cbn [andb]. by rewrite IH.
Qed.

Lemma sub_fence_closing bol s :
  has_char backtick s = false ->
  Re.sub_fence 0 false bol (s +:+ Enrichment.LF +:+ "```") = s +:+ Enrichment.LF.
Proof.
  revert bol. induction s as [|c s IH]; intros bol.
  - intros _. by destruct bol.
  - cbn [has_char]. intros [Hc Hs]%orb_false_iff.
    change (String c s +:+ Enrichment.LF +:+ "```")
      with (String c (s +:+ Enrichment.LF +:+ "```")).
    cbn [Re.sub_fence andb]. rewrite !(prefix_other c) by done.
    rewrite andb_false_r. cbn [andb]. by rewrite IH.
Qed.

Lemma sub_fence_opening bol s :
  has_char backtick s = false ->
  Re.sub_fence 0 true bol (s +:+ Enrichment.LF +:+ "```")
  = match Py.lstrip s with
    | EmptyString => EmptyString
    | t => t +:+ Enrichment.LF
    end.
Proof.
  revert bol. induction s as [|c s IH]; intros bol.
  - intros _. by destruct bol.
  - cbn [has_char]. intros [Hc Hs]%orb_false_iff.
    change (String c s +:+ Enrichment.LF +:+ "```")
      with (String c (s +:+ Enrichment.LF +:+ "```")).
    cbn [Re.sub_fence Py.lstrip]. destruct (Py.isspace c) eqn:Hsp; cbn [andb].
    + by apply IH.
    + rewrite !(prefix_other c) by done. rewrite andb_false_r. cbn [andb].
      by rewrite sub_fence_closing.
Qed.

Lemma rstrip_app_space t c :
  Py.isspace c = true -> Py.rstrip (t +:+ String c EmptyString) = Py.rstrip t.
Proof.
  intros Hc. induction t as [|d t IH].
  - change ("" +:+ String c "") with (String c "").
    rewrite rstrip_unfold. cbn [Py.rstrip]. by rewrite Hc.
  - change (String d t +:+ String c "") with (String d (t +:+ String c "")).
    by rewrite !rstrip_unfold, IH.
Qed.

Lemma rstrip_app_kept s t :
  Py.rstrip t <> "" -> Py.rstrip (s +:+ t) = s +:+ Py.rstrip t.
Proof.
  intros Ht. induction s as [|c s IH]; [done|].
  change (String c s +:+ t) with (String c (s +:+ t)).
  change (String c s +:+ Py.rstrip t) with (String c (s +:+ Py.rstrip t)).
  rewrite rstrip_unfold, IH.
  destruct (s +:+ Py.rstrip t) eqn:Heq; [|done].
  exfalso. apply Ht. destruct s; [exact Heq | discriminate].
Qed.

Lemma append_assoc (a b c : string) : (a +:+ b) +:+ c = a +:+ (b +:+ c).
Proof.
  induction a as [|x a IH]; [done|].
  change (String x ((a +:+ b) +:+ c) = String x (a +:+ (b +:+ c))).
  by rewrite IH.
Qed.

Lemma has_char_lstrip c s : has_char c s = false -> has_char c (Py.lstrip s) = false.
Proof.
  induction s as [|d s IH]; [done|]. cbn [Py.lstrip].
  destruct (Py.isspace d); [|done]. cbn [has_char].
  intros [_ Hs]%orb_false_iff. by apply IH.
Qed.

Lemma has_char_rstrip c s : has_char c s = false -> has_char c (Py.rstrip s) = false.
Proof.
  induction s as [|d s IH]; [done|]. cbn [has_char].
  intros [Hd Hs]%orb_false_iff. rewrite rstrip_unfold.
  destruct (Py.rstrip s) eqn:Hr.
  - destruct (Py.isspace d); [done|]. cbn [has_char]. by rewrite Hd.
  - cbn [has_char] in *. rewrite Hd. by apply IH.
Qed.

Lemma strip_unfenced body :
  has_char backtick body = false ->
  Py.strip (Re.remove_code_fence (Py.strip body)) = Py.strip body.
Proof.
  intros Hb. unfold Re.remove_code_fence. rewrite sub_fence_plain.
  - apply strip_idempotent.
  - unfold Py.strip. by apply has_char_rstrip, has_char_lstrip.
Qed.

Lemma strip_fenced body :
  has_char backtick body = false ->
  Py.strip (Re.remove_code_fence (Py.strip (fenced body))) = Py.strip body.
Proof.
  intros Hb.
  assert (Hstrip : Py.strip (fenced body) = fenced body).
  { unfold fenced, Py.strip.
    change (Py.lstrip ("```csv" +:+ Enrichment.LF +:+ body +:+ Enrichment.LF +:+ "```"))
      with ("```csv" +:+ Enrichment.LF +:+ body +:+ Enrichment.LF +:+ "```").
    rewrite <- !append_assoc. rewrite rstrip_app_kept; [done | discriminate]. }
  rewrite Hstrip. unfold fenced, Re.remove_code_fence.
  change (Re.sub_fence 0 false true
            ("```csv" +:+ Enrichment.LF +:+ body +:+ Enrichment.LF +:+ "```"))
    with (Re.sub_fence 0 true true (body +:+ Enrichment.LF +:+ "```")).
  rewrite sub_fence_opening by done.
  unfold Py.strip at 2.
  pose proof (starts_clean_lstrip body) as Hclean.
  destruct (Py.lstrip body) as [|c t] eqn:Hl; [done|].
  unfold Py.strip. rewrite lstrip_clean by exact Hclean.
  unfold Enrichment.LF. rewrite rstrip_app_space; [|done].
  done.
Qed.

(** X12: a reply wrapped in a [csv] code fence is enriched as the bare
    reply is: for a reply text without a backtick, the enrichment stage
    returns the same table and the same log whether the text comes alone or
    between a first line of three backticks and [csv] and a last line of
    three backticks. *)
Theorem fenced_reply_is_unwrapped `{External} (body : string) (df : DataFrame) :
  has_char backtick body = false ->
  Enrichment.enrich_data (Some (fenced body)) df
  = Enrichment.enrich_data (Some body) df.
Proof.
  intros Hb. unfold Enrichment.enrich_data, Enrichment.gemini_generate.
  by rewrite strip_fenced, strip_unfenced.
Qed.

(** Witness of X12 on a reply of two lines. *)
Lemma fenced_reply_is_unwrapped_witness :
  Enrichment.enrich_data (H := Reference.external)
    (Some (fenced ("gender" +:+ Enrichment.LF +:+ "Female"))) Examples.two_genders
  = Enrichment.enrich_data (H := Reference.external)
      (Some ("gender" +:+ Enrichment.LF +:+ "Female")) Examples.two_genders.
Proof.
  apply (fenced_reply_is_unwrapped (H := Reference.external)). reflexivity.
Defined.

(** ** What the patterns accept *)

Lemma at_end_line_end e : Re.at_end e = true <-> line_end e.
Proof.
  unfold line_end, Enrichment.LF. destruct e as [|c [|d e]]; simpl.
  - split; [by left | done].
  - split.
    + intros Hc. right. apply Nat.eqb_eq in Hc. f_equal.
      rewrite <- (ascii_nat_embedding c). unfold Py.code in Hc. by rewrite Hc.
    + intros [|[= ->]]; [done|]. reflexivity.
  - split; [done|]. intros [|]; discriminate.
Qed.

(** A repetition of a class matches exactly the splits of the text into a
    run of the class, of a length within the bounds, and a rest that the
    continuation accepts. *)
Lemma repeat_class_elim p lo hi s k :
  Re.repeat_class p lo hi s k = true ->
  exists pre rest,
    s = pre +:+ rest /\ Py.all_chars p pre = true
    /\ (lo <= String.length pre)%nat
    /\ (forall n, hi = Some n -> (String.length pre <= n)%nat)
    /\ k rest = true.
Proof.
  revert lo hi. induction s as [|c s IH]; intros lo hi; cbn [Re.repeat_class].
  - rewrite orb_false_r. destruct lo; [|done]. intros Hk.
    exists "", "". repeat split; try done. simpl. intros; lia.
  - intros [Hk|Hstep]%orb_true_iff.
    + destruct lo; [|done]. exists "", (String c s).
      repeat split; try done. simpl. intros; lia.
    + assert (Hgo : p c && Re.repeat_class p (Nat.pred lo) (option_map Nat.pred hi) s k = true
                    /\ hi <> Some 0%nat).
      { destruct hi as [[|n]|]; [done | by split | by split]. }
      destruct Hgo as [[Hc Hrec]%andb_true_iff Hhi].
      destruct (IH _ _ Hrec) as (pre & rest & -> & Hall & Hlo & Hbound & Hk).
      exists (String c pre), rest. split; [done|]. split; [simpl; by rewrite Hc|].
      split; [simpl; lia|]. split; [|done].
      intros n ->. destruct n; [done|]. specialize (Hbound n eq_refl). simpl. lia.
Qed.

Lemma repeat_class_intro p lo hi pre rest k :
  Py.all_chars p pre = true -> (lo <= String.length pre)%nat ->
  (forall n, hi = Some n -> (String.length pre <= n)%nat) ->
  k rest = true ->
  Re.repeat_class p lo hi (pre +:+ rest) k = true.
Proof.
  revert lo hi. induction pre as [|c pre IH]; intros lo hi Hall Hlo Hhi Hk.
  - simpl in Hlo. assert (lo = 0%nat) as -> by lia.
    change ("" +:+ rest) with rest. destruct rest; cbn [Re.repeat_class]; by rewrite Hk.
  - change (String c pre +:+ rest) with (String c (pre +:+ rest)).
    cbn [Re.repeat_class]. apply orb_true_iff. right.
    simpl in Hall. apply andb_true_iff in Hall as [Hc Hall].
    assert (Hstep : p c && Re.repeat_class p (Nat.pred lo) (option_map Nat.pred hi)
                                           (pre +:+ rest) k = true).
    { rewrite Hc. cbn [andb]. apply IH; [done | simpl in Hlo; lia | | done].
      intros n Hn. destruct hi as [m|]; [|done]. cbn in Hn. injection Hn as <-.
      specialize (Hhi m eq_refl). simpl in Hhi. lia. }
    destruct hi as [[|n]|]; [|done|done].
    specialize (Hhi 0%nat eq_refl). simpl in Hhi. lia.
Qed.

Lemma chr_elim c s k :
  Re.run (Re.Chr c) s k = true -> exists rest, s = String c rest /\ k rest = true.
Proof.
  destruct s as [|c' s]; cbn [Re.run]; [done|].
  intros [Hc Hk]%andb_true_iff. apply Ascii.eqb_eq in Hc as <-. eauto.
Qed.

(** X13: the phone rule of detection accepts exactly the texts made of
    three or four digits, a hyphen and four digits, possibly followed by
    one line feed. *)
Theorem phone_pattern_accepts (s : string) :
  Re.matches Detection.PHONE_REGEX s = true
  <-> exists a b e,
        s = a +:+ "-" +:+ b +:+ e
        /\ Py.all_chars Py.isdigit a = true
        /\ (String.length a = 3 \/ String.length a = 4)%nat
        /\ Py.all_chars Py.isdigit b = true /\ String.length b = 4%nat
        /\ line_end e.
Proof.
  unfold Re.matches, Detection.PHONE_REGEX. cbn [Re.run]. split.
  - intros Hm.
    apply repeat_class_elim in Hm as (a & r1 & -> & Ha & Hlo & Hhi & Hm).
    destruct r1 as [|c r1]; [done|].
    apply andb_true_iff in Hm as [Hc Hm]. apply Ascii.eqb_eq in Hc as <-.
    apply repeat_class_elim in Hm as (b & e & -> & Hb & Hlo' & Hhi' & Hm).
    apply andb_true_iff in Hm as [He _]. apply at_end_line_end in He.
    exists a, b, e. split; [done|]. split; [done|].
    specialize (Hhi 4%nat eq_refl). specialize (Hhi' 4%nat eq_refl).
    split; [lia|]. split; [done|]. split; [lia | done].
  - intros (a & b & e & -> & Ha & Hla & Hb & Hlb & He).
    apply repeat_class_intro; [done | lia | intros n [= <-]; lia |].
    change ("-" +:+ b +:+ e) with (String "-" (b +:+ e)).
    cbn [Ascii.eqb Bool.eqb andb].
    apply repeat_class_intro; [done | lia | intros n [= <-]; lia |].
    apply at_end_line_end in He. by rewrite He.
Qed.

(** X14: the email rule of detection accepts exactly the texts made of a
    local part, an [@], a domain, a dot and a last label, possibly followed
    by one line feed, where the local part and the domain are non-empty
    runs of letters, digits, underscores, dots and hyphens and the last
    label is a non-empty run of letters, digits and underscores. *)
Theorem email_pattern_accepts (s : string) :
  Re.matches Detection.EMAIL_REGEX s = true
  <-> exists l d t e,
        s = l +:+ "@" +:+ d +:+ "." +:+ t +:+ e
        /\ l <> "" /\ Py.all_chars Detection.word_dot_dash l = true
        /\ d <> "" /\ Py.all_chars Detection.word_dot_dash d = true
        /\ t <> "" /\ Py.all_chars Py.isword t = true
        /\ line_end e.
Proof.
  assert (Hlen : forall x, (1 <= String.length x)%nat <-> x <> "").
  { intros [|c x]; simpl; split; (done || lia). }
  unfold Re.matches, Detection.EMAIL_REGEX, Re.plus. cbn [Re.run]. split.
  - intros Hm.
    apply repeat_class_elim in Hm as (l & r1 & -> & Hl & Hlo & _ & Hm).
    destruct r1 as [|c r1]; [done|].
    apply andb_true_iff in Hm as [Hc Hm]. apply Ascii.eqb_eq in Hc as <-.
    apply repeat_class_elim in Hm as (d & r2 & -> & Hd & Hlo' & _ & Hm).
    destruct r2 as [|c r2]; [done|].
    apply andb_true_iff in Hm as [Hc Hm]. apply Ascii.eqb_eq in Hc as <-.
    apply repeat_class_elim in Hm as (t & e & -> & Ht & Hlo'' & _ & Hm).
    apply andb_true_iff in Hm as [He _]. apply at_end_line_end in He.
    exists l, d, t, e. rewrite <- !Hlen. done.
  - intros (l & d & t & e & -> & Hl & Hal & Hd & Had & Ht & Hat & He).
    apply Hlen in Hl, Hd, Ht.
    apply repeat_class_intro; [done | done | done |].
    change ("@" +:+ d +:+ "." +:+ t +:+ e) with (String "@" (d +:+ "." +:+ t +:+ e)).
    cbn [Ascii.eqb Bool.eqb andb].
    apply repeat_class_intro; [done | done | done |].
    change ("." +:+ t +:+ e) with (String "." (t +:+ e)).
    cbn [Ascii.eqb Bool.eqb andb].
    apply repeat_class_intro; [done | done | done |].
    apply at_end_line_end in He. by rewrite He.
Qed.

(** ** Phone numbers that detection accepts *)

Lemma only_digits_app s t :
  Py.only_digits (s +:+ t) = Py.only_digits s +:+ Py.only_digits t.
Proof.
  induction s as [|c s IH]; [done|].
  change (String c s +:+ t) with (String c (s +:+ t)). cbn [Py.only_digits].
  rewrite IH. by destruct (Py.isdigit c).
Qed.

Lemma only_digits_all s : Py.all_chars Py.isdigit s = true -> Py.only_digits s = s.
Proof.
  induction s as [|c s IH]; [done|]. cbn [Py.all_chars Py.only_digits].
  intros [Hc Hs]%andb_true_iff. by rewrite Hc, IH.
Qed.

Lemma take_app_exact s t : Py.take (String.length s) (s +:+ t) = s.
Proof.
  induction s as [|c s IH]; [by destruct t|].
  change (String c s +:+ t) with (String c (s +:+ t)). cbn [String.length Py.take].
  by rewrite IH.
Qed.

Lemma append_empty s : s +:+ "" = s.
Proof.
  induction s as [|c s IH]; [done|].
  change (String c s +:+ "") with (String c (s +:+ "")). by rewrite IH.
Qed.

Lemma drop_app_exact s t : Py.drop (String.length s) (s +:+ t) = t.
Proof. induction s as [|c s IH]; [done|]. exact IH. Qed.

(** X15: a phone number of three or four digits, a hyphen and four digits
    is accepted by the phone rule of detection, and the phone rule of
    correction writes it with its first group padded on the left with
    zeros to four digits: a number of four and four digits is left as it
    is, a number of three and four digits, valid for detection, gets a
    leading zero. *)
Theorem accepted_phone_is_padded `{External} (a b : string) :
  Py.all_chars Py.isdigit a = true -> (String.length a = 3 \/ String.length a = 4)%nat ->
  Py.all_chars Py.isdigit b = true -> String.length b = 4%nat ->
  Re.matches Detection.PHONE_REGEX (a +:+ "-" +:+ b) = true
  /\ Correction.standard_phone (VStr (a +:+ "-" +:+ b))
     = VStr (Py.rjust 4 "0" a +:+ "-" +:+ b).
Proof.
  intros Ha Hla Hb Hlb. split.
  - unfold Re.matches, Detection.PHONE_REGEX. cbn [Re.run].
    apply repeat_class_intro; [done | lia | intros n [= <-]; lia |].
    change ("-" +:+ b) with (String "-" b). cbn [Ascii.eqb Bool.eqb andb].
    rewrite <- (append_empty b).
    apply repeat_class_intro; [done | lia | intros n [= <-]; lia | done].
  - unfold Correction.standard_phone, Correction.phone_digits. f_equal.
    change (str (VStr (a +:+ "-" +:+ b))) with (a +:+ "-" +:+ b).
    rewrite !only_digits_app, (only_digits_all a Ha), (only_digits_all b Hb).
    change (Py.only_digits "-") with "". change ("" +:+ b) with b.
    unfold Py.rjust. rewrite length_append, Hlb.
    replace (8 - (String.length a + 4))%nat with (4 - String.length a)%nat by lia.
    set (pad := Py.replicate_char (4 - String.length a) "0" +:+ a).
    assert (Hpad : String.length pad = 4%nat).
    { unfold pad. rewrite length_append, length_replicate. lia. }
    rewrite <- (append_assoc _ a b). fold pad.
    unfold Correction.phone_format, Py.slice_from_end, Py.last_chars.
    rewrite length_append, Hpad, Hlb.
    change (Py.take 4 (pad +:+ b) +:+ "-" +:+ Py.drop 4 (pad +:+ b)
            = pad +:+ "-" +:+ b).
    rewrite <- Hpad at 1 2. by rewrite take_app_exact, drop_app_exact.
Qed.

(** Witness of X15 on [555-1234]. *)
Lemma accepted_phone_is_padded_witness :
  Re.matches Detection.PHONE_REGEX "555-1234" = true
  /\ Correction.standard_phone (H := Reference.external) (VStr "555-1234")
     = VStr "0555-1234".
Proof.
  apply (accepted_phone_is_padded (H := Reference.external) "555" "1234");
    [reflexivity | left; reflexivity | reflexivity | reflexivity].
Defined.

(** ** The log of correction *)

Section CorrectionLog.
Context `{External}.

Lemma snd_standardize col what f st :
  exists extra,
    snd (Correction.standardize col what f st) = snd st ++ extra
    /\ Forall column_change extra.
Proof.
  destruct st as [d logs]. unfold Correction.standardize.
  destruct (has_column col d).
  - destruct (changes _ _) as [|e es] eqn:Hch; cbn [nonempty snd].
    + exists []. split; [by rewrite app_nil_r | by apply Forall_nil].
    + exists [Standardized what (e :: es)]. split; [done|].
      constructor; [done | by apply Forall_nil].
  - exists []. split; [by rewrite app_nil_r | by apply Forall_nil].
Qed.

Lemma snd_remove_duplicates st :
  snd (Correction.remove_duplicates st)
  = snd st
    ++ (if negb (length (rows (fst st)) =? length (rows (drop_duplicates (fst st))))%nat
        then [RemovedDuplicates (length (rows (fst st))
                                 - length (rows (drop_duplicates (fst st))))]
        else []).
Proof.
  destruct st as [d logs]. unfold Correction.remove_duplicates. cbn [fst snd].
  destruct (negb _); [done | by rewrite app_nil_r].
Qed.

Lemma snd_drop_issues st : snd (Correction.drop_issues st) = snd st.
Proof. destruct st as [d logs]. unfold Correction.drop_issues. by destruct (has_column _ _). Qed.

Lemma length_rows_step col f d : length (rows (step col f d)) = length (rows d).
Proof. by rewrite rows_step, length_map. Qed.

Lemma standardize_extends col what f st l :
  (exists extra, snd st = l ++ extra /\ Forall column_change extra) ->
  exists extra,
    snd (Correction.standardize col what f st) = l ++ extra
    /\ Forall column_change extra.
Proof.
  intros (extra & Heq & Hall).
  destruct (snd_standardize col what f st) as (more & -> & Hmore).
  exists (extra ++ more). rewrite Heq, app_assoc. split; [done|].
  apply Forall_app. by split.
Qed.

Lemma snd_names st :
  exists extra,
    snd (fold_left Correction.standardize_name name_columns st) = snd st ++ extra
    /\ Forall column_change extra.
Proof.
  unfold name_columns. cbn [fold_left]. unfold Correction.standardize_name.
  do 3 apply standardize_extends.
  exists []. split; [by rewrite app_nil_r | by apply Forall_nil].
Qed.

(** The log of correction: entries for the name columns, the entry for the
    removed rows if some were removed, entries for the other columns. *)
Lemma correction_log_shape df :
  let removed := (length (rows df) - length (rows (fst (Correction.correct_issues df))))%nat in
  exists names others,
    snd (Correction.correct_issues df)
    = (names ++ (if (0 <? removed)%nat then [RemovedDuplicates removed] else [])) ++ others
    /\ Forall column_change names /\ Forall column_change others.
Proof.
  intros removed.
  assert (Hcount : (length (rows (deduplicated df)) <= length (rows df))%nat).
  { rewrite rows_deduplicated. etrans; [apply length_keep_first|]. by rewrite length_map. }
  assert (Hremoved : removed = (length (rows df) - length (rows (deduplicated df)))%nat).
  { unfold removed. by rewrite rows_corrected, length_map. }
  clearbody removed.
  destruct (snd_names (df, [])) as (names & Hnames & Hall).
  exists names.
  assert (Hdedup :
    snd (Correction.remove_duplicates
           (fold_left Correction.standardize_name name_columns (df, [])))
    = names ++ (if (0 <? removed)%nat then [RemovedDuplicates removed] else [])).
  { rewrite snd_remove_duplicates, Hnames, fst_names. cbn [fst snd app].
    fold (deduplicated df). rewrite rows_named, length_map, <- Hremoved. f_equal.
    destruct (Nat.eqb_spec (length (rows df)) (length (rows (deduplicated df))));
      destruct (Nat.ltb_spec 0 removed); cbn [negb]; (done || lia). }
  assert (Hothers : exists others,
    snd (Correction.correct_issues df)
    = (names ++ (if (0 <? removed)%nat then [RemovedDuplicates removed] else [])) ++ others
    /\ Forall column_change others).
  { unfold Correction.correct_issues. rewrite snd_drop_issues.
    do 7 apply standardize_extends.
    exists []. split; [|by apply Forall_nil].
    rewrite app_nil_r. exact Hdedup. }
  destruct Hothers as (others & Heq & Hothers). exists others. done.
Qed.

End CorrectionLog.

(** X16: the log of correction counts the removed rows: it has an entry
    for [n] removed duplicate rows exactly when the result has [n] rows
    fewer than the input and [n] is not 0. *)
Theorem removed_rows_are_logged `{External} (df : DataFrame) (n : nat) :
  In (RemovedDuplicates n) (snd (Correction.correct_issues df))
  <-> (n = length (rows df) - length (rows (fst (Correction.correct_issues df)))
       /\ 0 < n)%nat.
Proof.
  destruct (correction_log_shape df) as (names & others & -> & Hnames & Hothers).
  cbv zeta.
  set (removed := (length (rows df) - length (rows (fst (Correction.correct_issues df))))%nat).
  assert (Hnot : forall l, Forall column_change l -> ~ In (RemovedDuplicates n) l).
  { intros l Hall Hin. rewrite Forall_forall in Hall.
    apply list_elem_of_In in Hin. by apply Hall in Hin. }
  rewrite !in_app_iff. split.
  - intros [[Hin|Hin]|Hin]; [by apply Hnot in Hin | | by apply Hnot in Hin].
    destruct (Nat.ltb_spec 0 removed); [|done].
    destruct Hin as [[= <-]|[]]. done.
  - intros [-> Hpos]. left. right. fold removed in Hpos.
    apply Nat.ltb_lt in Hpos. rewrite Hpos. by left.
Qed.
